(** * SkyPulse analytics: a shallow embedding of the Python analytics engine

    Source files embedded here:
    - [python-analytics/analytics_service.py]  ([AirQualityAnalytics])
    - [python-analytics/database_analytics.py] ([DatabaseAirQualityAnalytics])

    Conventions of the embedding.
    - Python numbers are exact rationals ([Q]); a decimal literal such as
      [12.1] is the rational [121/10].  Results that the code converts with
      [int(...)] are integers ([Z]).
    - A missing number ([None], [NaN]) is [None] of an [option]; every
      comparison with it is false, as in Python.
    - A function that can raise returns an [option] ([None] is the raise)
      or, where the message matters, an [outcome].
    - Time stamps are integers (seconds); the missing time stamp [NaT] is
      [None].
    - The storage layer is a list of rows; the statements sent to it are
      kept in a log.

    The definitions come first, module by module in the order of the
    pipeline; the properties follow. *)

From Stdlib Require Import ZArith QArith Qround List String Bool Lia Lqa.
From Stdlib Require Import Permutation Sorted.
Import ListNotations.

Local Open Scope Q_scope.

(** ** Numbers *)

Module Num.

(** [a <= b] and [a < b] on Python numbers, as booleans. *)
Definition leb (a b : Q) : bool := Qle_bool a b.
Definition ltb (a b : Q) : bool := negb (Qle_bool b a).

(** Python 3 [round(x)]: the nearest integer, a tie going to the even
    neighbour. *)
Definition round_half_even (x : Q) : Z :=
  let f := Qfloor x in
  match Qcompare (x - inject_Z f) (1 # 2) with
  | Lt => f
  | Gt => (f + 1)%Z
  | Eq => if Z.even f then f else (f + 1)%Z
  end.

(** The other convention, for comparison: a tie goes up. *)
Definition round_half_up (x : Q) : Z := Qfloor (x + (1 # 2)).

(** Python [round(x, 2)]. *)
Definition round2 (x : Q) : Q := inject_Z (round_half_even (x * 100)) / 100.

(** Python [int(x)]: truncation toward zero. *)
Definition int (x : Q) : Z := if Qle_bool 0 x then Qfloor x else Qceiling x.

End Num.

(** ** AQI classifier ([get_aqi_category]) *)

Module Classifier.

Local Open Scope string_scope.

(** [self.aqi_categories]: a dict, iterated in insertion order. *)
Definition aqi_categories : list (string * (Q * Q * string)) :=
  [ ("Good",                           (0,   50,  "#00ff88"));
    ("Moderate",                       (51,  100, "#ffff00"));
    ("Unhealthy for Sensitive Groups", (101, 150, "#ff8800"));
    ("Unhealthy",                      (151, 200, "#ff0000"));
    ("Very Unhealthy",                 (201, 300, "#8800ff"));
    ("Hazardous",                      (301, 500, "#880000")) ].

(** [min_val <= aqi_value <= max_val] *)
Definition in_range (entry : string * (Q * Q * string)) (aqi_value : Q) : bool :=
  let '(_, (min_val, max_val, _)) := entry in
  Num.leb min_val aqi_value && Num.leb aqi_value max_val.

(** The [for] loop of [get_aqi_category] over a table, with the final
    [return 'Hazardous', '#880000']. *)
Fixpoint scan_categories (table : list (string * (Q * Q * string)))
    (aqi_value : Q) : string * string :=
  match table with
  | [] => ("Hazardous", "#880000")
  | entry :: rest =>
      if in_range entry aqi_value
      then (fst entry, snd (snd entry))
      else scan_categories rest aqi_value
  end.

Definition get_aqi_category (aqi_value : Q) : string * string :=
  scan_categories aqi_categories aqi_value.

(** The classifier applied to a data-frame cell: on [NaN] both comparisons
    are false in every iteration, so the loop falls through. *)
Definition get_aqi_category_cell (cell : option Q) : string * string :=
  match cell with
  | Some v => get_aqi_category v
  | None => scan_categories [] 0
  end.

(** The entries of the table whose inclusive range contains the value. *)
Definition matching (aqi_value : Q) : list (string * (Q * Q * string)) :=
  filter (fun e => in_range e aqi_value) aqi_categories.

End Classifier.

(** ** PM2.5 to AQI converter ([calculate_aqi_from_pm25]) *)

Module Converter.

(** The local [breakpoints] list: [(bp_lo, bp_hi, aqi_lo, aqi_hi)]. *)
Definition breakpoints : list (Q * Q * Q * Q) :=
  [ (0,     12.0,  0,   50);
    (12.1,  35.4,  51,  100);
    (35.5,  55.4,  101, 150);
    (55.5,  150.4, 151, 200);
    (150.5, 250.4, 201, 300);
    (250.5, 350.4, 301, 400);
    (350.5, 500.4, 401, 500) ].

(** [((aqi_hi - aqi_lo) / (bp_hi - bp_lo)) * (pm25 - bp_lo) + aqi_lo] *)
Definition interpolate (bp : Q * Q * Q * Q) (pm25 : Q) : Q :=
  let '(bp_lo, bp_hi, aqi_lo, aqi_hi) := bp in
  ((aqi_hi - aqi_lo) / (bp_hi - bp_lo)) * (pm25 - bp_lo) + aqi_lo.

(** [bp_lo <= pm25 <= bp_hi] *)
Definition covers (bp : Q * Q * Q * Q) (pm25 : Q) : bool :=
  let '(bp_lo, bp_hi, _, _) := bp in
  Num.leb bp_lo pm25 && Num.leb pm25 bp_hi.

(** The [for] loop over the breakpoints, with the final [return 500]. *)
Fixpoint scan_breakpoints (bps : list (Q * Q * Q * Q)) (pm25 : Q) : Z :=
  match bps with
  | [] => 500%Z
  | bp :: rest =>
      if covers bp pm25
      then Num.round_half_even (interpolate bp pm25)
      else scan_breakpoints rest pm25
  end.

(** [calculate_aqi_from_pm25]; the argument is [None] for [None]/[NaN]. *)
Definition calculate_aqi_from_pm25 (pm25 : option Q) : Z :=
  match pm25 with
  | None => 50%Z
  | Some c => if Num.ltb c 0 then 50%Z else scan_breakpoints breakpoints c
  end.

End Converter.

(** ** Statistics aggregator ([calculate_statistics]) *)

Module Stats.

Local Open Scope string_scope.

(** [Series.sum()], [len(df)] as a number, [Series.mean()]. *)
Fixpoint sum (l : list Q) : Q :=
  match l with
  | [] => 0
  | x :: rest => x + sum rest
  end.

Definition count (l : list Q) : Q := inject_Z (Z.of_nat (List.length l)).

Definition mean (l : list Q) : Q := sum l / count l.

(** The sum of the squared deviations from [m]. *)
Fixpoint sq_dev (m : Q) (l : list Q) : Q :=
  match l with
  | [] => 0
  | x :: rest => (x - m) * (x - m) + sq_dev m rest
  end.

(** [Series.var(ddof)]: the squared deviations from the mean over
    [n - ddof]; [NaN] when [n - ddof] is not positive. *)
Definition var (ddof : nat) (l : list Q) : option Q :=
  if (List.length l <=? ddof)%nat then None
  else Some (sq_dev (mean l) l / inject_Z (Z.of_nat (List.length l - ddof))).

(** [round(sqrt(v), 2)] for [v >= 0]: the hundredth nearest to the square
    root, computed on integers ([2 * 100 * sqrt v] floored, then halved
    upward). *)
Definition sqrt_round2 (v : Q) : Q :=
  inject_Z ((Z.sqrt (Qfloor (v * 40000)) + 1) / 2) / 100.

(** [round(df['aqiValue'].std(), 2)]: pandas' [std] is called without
    [ddof], whose default is 1. *)
Definition std_round2 (l : list Q) : option Q :=
  option_map sqrt_round2 (var 1 l).

(** [Series.max()] and [Series.min()] of a non-empty column. *)
Definition Qmax (a b : Q) : Q := if Num.leb a b then b else a.
Definition Qmin (a b : Q) : Q := if Num.leb a b then a else b.

Fixpoint maximum (x : Q) (l : list Q) : Q :=
  match l with
  | [] => x
  | y :: rest => maximum (Qmax x y) rest
  end.

Fixpoint minimum (x : Q) (l : list Q) : Q :=
  match l with
  | [] => x
  | y :: rest => minimum (Qmin x y) rest
  end.

(** [range(n)] as numbers. *)
Definition range (n : nat) : list Q :=
  map (fun i => inject_Z (Z.of_nat i)) (seq 0 n).

Fixpoint dot (a b : list Q) : Q :=
  match a, b with
  | x :: a', y :: b' => x * y + dot a' b'
  | _, _ => 0
  end.

(** [np.polyfit(x, y, 1)]: the coefficients (slope, intercept) of the
    degree-one least-squares fit, by the normal equations. *)
Definition polyfit1 (x y : list Q) : Q * Q :=
  let n := count x in
  let d := n * dot x x - sum x * sum x in
  let slope := (n * dot x y - sum x * sum y) / d in
  (slope, (sum y - slope * sum x) / n).

(** The trend analysis: [len(df) > 1], the slope against [range(len(df))],
    and the two thresholds. *)
Definition trend (aqi : list Q) : string :=
  if (1 <? List.length aqi)%nat then
    let trend_coef := fst (polyfit1 (range (List.length aqi)) aqi) in
    if Num.ltb 0.5 trend_coef then "Increasing"
    else if Num.ltb trend_coef (-0.5) then "Decreasing"
    else "Stable"
  else "Insufficient data".

(** The fields of [stats] that depend on the AQI column alone. *)
Record stats : Type := {
  total_records : nat;
  avg_aqi : Q;
  max_aqi : Z;
  min_aqi : Z;
  std_aqi : option Q;
  trend_label : string
}.

(** [calculate_statistics] on the AQI column of the frame.  On an empty
    frame [int(df['aqiValue'].max())] is [int(nan)], which raises. *)
Definition calculate_statistics (aqi : list Q) : option stats :=
  match aqi with
  | [] => None
  | x :: rest =>
      Some {| total_records := List.length aqi;
              avg_aqi := Num.round2 (mean aqi);
              max_aqi := Num.int (maximum x rest);
              min_aqi := Num.int (minimum x rest);
              std_aqi := std_round2 aqi;
              trend_label := trend aqi |}
  end.

(** *** The words of the specification *)

(** The sum of squared residuals of the line [a * x + b]. *)
Fixpoint sse (x y : list Q) (a b : Q) : Q :=
  match x, y with
  | xi :: x', yi :: y' => (yi - (a * xi + b)) * (yi - (a * xi + b)) + sse x' y' a b
  | _, _ => 0
  end.

(** The sum of the squares of a line's values over the abscissas. *)
Fixpoint line_sq (x : list Q) (a b : Q) : Q :=
  match x with
  | [] => 0
  | xi :: x' => (a * xi + b) * (a * xi + b) + line_sq x' a b
  end.

(** [(a, b)] is a least-squares line of the readings against their 0-based
    index: no line has a smaller sum of squared residuals. *)
Definition least_squares (aqi : list Q) (a b : Q) : Prop :=
  forall a' b', sse (range (List.length aqi)) aqi a b <= sse (range (List.length aqi)) aqi a' b'.

(** The population variance (divisor [n]) and the sample variance
    (divisor [n - 1]). *)
Definition population_variance (l : list Q) : Q :=
  sq_dev (mean l) l / inject_Z (Z.of_nat (List.length l)).

Definition sample_variance (l : list Q) : Q :=
  sq_dev (mean l) l / (inject_Z (Z.of_nat (List.length l)) - 1).

(** [r] is the square root of [v] rounded to two decimals: a whole number
    [k] of hundredths no further than half a hundredth from the root. *)
Definition sqrt_rounded_to_2 (v r : Q) : Prop :=
  exists k : Z,
    (0 <= k)%Z /\ r == inject_Z k / 100 /\
    v * 40000 < inject_Z ((2 * k + 1) * (2 * k + 1)) /\
    (k = 0%Z \/ inject_Z ((2 * k - 1) * (2 * k - 1)) <= v * 40000).

End Stats.


(** ** Ordering rows ([ORDER BY], [sort_values]) *)

Module Order.

Section InsertionSort.

Context {A : Type} (leb : A -> A -> bool).

Fixpoint insert (x : A) (l : list A) : list A :=
  match l with
  | [] => [x]
  | y :: rest => if leb x y then x :: y :: rest else y :: insert x rest
  end.

(** A stable sort: of two rows with equal keys the earlier stays first. *)
Fixpoint sort (l : list A) : list A :=
  match l with
  | [] => []
  | x :: rest => insert x (sort rest)
  end.

End InsertionSort.

(** Time stamps ascending, the missing time stamp [NaT] last. *)
Definition time_leb (a b : option Z) : bool :=
  match a, b with
  | Some x, Some y => (x <=? y)%Z
  | _, None => true
  | None, Some _ => false
  end.

End Order.

(** ** Data availability resolver
    ([check_city_and_data_availability], [fetch_data_from_database]) *)

Module Resolver.

Local Open Scope string_scope.
Local Open Scope Z_scope.

(** A row of the table [aqi_data]. *)
Record db_row : Type := {
  row_city : string;
  row_aqi_value : option Q;
  row_pollutants : list (option Q);   (* pm25, pm10, no2, so2, co, o3 *)
  row_timestamp : Z
}.

(** A row of the frame that [process_database_data] returns. *)
Record frame_row : Type := {
  f_row : db_row;
  f_aqi_category : string;
  f_aqi_color : string
}.

(** The statements the code sends to the storage layer. *)
Inductive query : Type :=
| CityCheck (city_name : string)
| PeriodCheck (city_name : string) (start_date end_date : Z)
| DataInPeriod (city_name : string) (start_date end_date : Z)
| DataAll (city_name : string).

(** [WHERE city = %s] and [timestamp BETWEEN %s AND %s]. *)
Definition of_city (city_name : string) (r : db_row) : bool :=
  String.eqb (row_city r) city_name.

Definition in_period (start_date end_date : Z) (r : db_row) : bool :=
  (start_date <=? row_timestamp r) && (row_timestamp r <=? end_date).

Definition minimum (l : list Z) : option Z :=
  match l with
  | [] => None
  | x :: rest => Some (fold_left Z.min rest x)
  end.

Definition maximum (l : list Z) : option Z :=
  match l with
  | [] => None
  | x :: rest => Some (fold_left Z.max rest x)
  end.

(** What the storage layer answers on a table. *)
Definition city_check (table : list db_row) (city_name : string)
    : nat * option Z * option Z :=
  let rows := filter (of_city city_name) table in
  (List.length rows,
   minimum (map row_timestamp rows),
   maximum (map row_timestamp rows)).

Definition period_check (table : list db_row) (city_name : string)
    (start_date end_date : Z) : nat :=
  List.length (filter (fun r => of_city city_name r
                                && in_period start_date end_date r) table).

Definition by_timestamp (a b : db_row) : bool :=
  (row_timestamp a <=? row_timestamp b).

Definition data_in_period (table : list db_row) (city_name : string)
    (start_date end_date : Z) : list db_row :=
  Order.sort by_timestamp
    (filter (fun r => of_city city_name r
                      && in_period start_date end_date r) table).

Definition data_all (table : list db_row) (city_name : string) : list db_row :=
  Order.sort by_timestamp (filter (of_city city_name) table).

(** *** Computations that query the table and may raise *)

Inductive outcome (A : Type) : Type :=
| Ok (a : A)
| Raise (message : string).

Arguments Ok {A} a.
Arguments Raise {A} message.

(** A computation reads the table and appends to the log of the statements
    sent so far. *)
Definition DB (A : Type) : Type :=
  list db_row -> list query -> outcome A * list query.

Definition ret {A : Type} (a : A) : DB A := fun _ log => (Ok a, log).

Definition raise {A : Type} (message : string) : DB A :=
  fun _ log => (Raise message, log).

Definition bind {A B : Type} (m : DB A) (k : A -> DB B) : DB B :=
  fun table log =>
    match m table log with
    | (Ok a, log') => k a table log'
    | (Raise message, log') => (Raise message, log')
    end.

(** [try: ... except Exception as e: raise Exception(prefix + str(e))] *)
Definition reraise {A : Type} (prefix : string) (m : DB A) : DB A :=
  fun table log =>
    match m table log with
    | (Ok a, log') => (Ok a, log')
    | (Raise message, log') => (Raise (prefix ++ message), log')
    end.

(** [conn.execute(...)]: the statement is logged and answered. *)
Definition execute {A : Type} (q : query) (answer : list db_row -> A) : DB A :=
  fun table log => (Ok (answer table), (log ++ [q])%list).

Declare Scope db_scope.
Delimit Scope db_scope with db.
Notation "x <- m ;; k" := (bind m (fun x => k))
  (at level 61, m at next level, right associativity) : db_scope.
Notation "' pat <- m ;; k" := (bind m (fun x => match x with pat => k end))
  (at level 61, pat pattern, m at next level, right associativity) : db_scope.

Local Open Scope db_scope.

(** The dict [data_info]; a key that a scenario does not set is [None]. *)
Record data_info : Type := {
  message : string;
  records_in_period : option nat;
  total_records : option nat;
  earliest_data : option Z;
  latest_data : option Z
}.

(** [check_city_and_data_availability]: the scenario number (1, 2 or 3)
    and the dict. *)
Definition check_city_and_data_availability (city_name : string)
    (start_date end_date : Z) : DB (nat * data_info) :=
  reraise "Error checking data availability: " (
    result <- execute (CityCheck city_name)
                (fun table => city_check table city_name) ;;
    let '(city_count, earliest, latest) := result in
    if (city_count =? 0)%nat then
      ret (3%nat,
           {| message := "City '" ++ city_name ++ "' not found in database";
              records_in_period := None; total_records := None;
              earliest_data := None; latest_data := None |})
    else
      period_count <- execute (PeriodCheck city_name start_date end_date)
        (fun table => period_check table city_name start_date end_date) ;;
      if (0 <? period_count)%nat then
        ret (1%nat,
             {| message := "Data available for " ++ city_name
                           ++ " in requested period";
                records_in_period := Some period_count;
                total_records := None;
                earliest_data := earliest; latest_data := latest |})
      else
        ret (2%nat,
             {| message := "City '" ++ city_name
                           ++ "' exists but no data for requested period";
                records_in_period := None;
                total_records := Some city_count;
                earliest_data := earliest; latest_data := latest |})).

(** [process_database_data]: sort by time stamp, attach category and
    colour.  The pollutant columns of the table are numeric already. *)
Definition process_database_data (df : list db_row) : list frame_row :=
  map (fun r =>
         {| f_row := r;
            f_aqi_category :=
              fst (Classifier.get_aqi_category_cell (row_aqi_value r));
            f_aqi_color :=
              snd (Classifier.get_aqi_category_cell (row_aqi_value r)) |})
      (Order.sort by_timestamp df).

(** [timedelta(days=30)], in seconds. *)
Definition thirty_days : Z := 30 * 24 * 3600.

(** [fetch_data_from_database]; [now] is [datetime.now()], a date that the
    caller does not give is [None]. *)
Definition fetch_data_from_database (now : Z) (city_name : string)
    (start_date end_date : option Z)
    : DB (list frame_row * nat * data_info) :=
  reraise "Database query failed: " (
    let end_date := match end_date with Some e => e | None => now end in
    let start_date :=
      match start_date with Some s => s | None => end_date - thirty_days end in
    checked <- check_city_and_data_availability city_name start_date end_date ;;
    let '(scenario, info) := checked in
    if (scenario =? 3)%nat then
      raise ("City '" ++ city_name ++ "' not found in database. "
             ++ message info)
    else
      df <- (if (scenario =? 1)%nat
             then execute (DataInPeriod city_name start_date end_date)
                    (fun table =>
                       data_in_period table city_name start_date end_date)
             else execute (DataAll city_name)
                    (fun table => data_all table city_name)) ;;
      match df with
      | [] => raise ("No data found for city '" ++ city_name ++ "'")
      | _ :: _ => ret (process_database_data df, scenario, info)
      end).

(** *** The words of the specification *)

(** Some stored reading has this city. *)
Definition city_known (table : list db_row) (city_name : string) : Prop :=
  exists r, In r table /\ row_city r = city_name.

(** Some stored reading of the city lies in the requested window. *)
Definition window_has_data (table : list db_row) (city_name : string)
    (start_date end_date : Z) : Prop :=
  exists r, In r table /\ row_city r = city_name /\
            start_date <= row_timestamp r <= end_date.

(** A statement that fetches the readings themselves. *)
Definition is_data_query (q : query) : bool :=
  match q with
  | DataInPeriod _ _ _ | DataAll _ => true
  | CityCheck _ | PeriodCheck _ _ _ => false
  end.

(** A small table for examples. *)
Definition sample_table : list db_row :=
  [ {| row_city := "Delhi"; row_aqi_value := Some 180%Q;
       row_pollutants := []; row_timestamp := 100 |};
    {| row_city := "Pune"; row_aqi_value := Some 60%Q;
       row_pollutants := []; row_timestamp := 150 |};
    {| row_city := "Delhi"; row_aqi_value := Some 90%Q;
       row_pollutants := []; row_timestamp := 200 |} ].

End Resolver.

(** ** Reading normalizer ([process_real_time_data]) *)

Module Normalizer.

Local Open Scope string_scope.

(** A value of a loosely typed record, as JSON gives it. *)
Inductive jval : Type :=
| JNull
| JNum (q : Q)
| JStr (s : string).

(** A raw record: a dict; a key that the dict does not have is [None]. *)
Record raw_record : Type := {
  r_timestamp : option jval;
  r_aqiValue : option jval;
  r_city : option jval;
  r_pm25 : option jval;
  r_pm10 : option jval;
  r_no2 : option jval;
  r_so2 : option jval;
  r_co : option jval;
  r_o3 : option jval
}.

(** A row of the returned frame. *)
Record reading : Type := {
  timestamp : option Z;       (* NaT is None *)
  city : jval;
  aqiValue : option Q;        (* NaN is None *)
  aqi_category : string;
  aqi_color : string;
  pm25 : option Q;
  pm10 : option Q;
  no2 : option Q;
  so2 : option Q;
  co : option Q;
  o3 : option Q
}.

(** [col in df.columns] after [pd.DataFrame(data)]: some record has the
    key. *)
Definition has_key (field : option jval) : bool :=
  match field with Some _ => true | None => false end.

Definition has_column (field : raw_record -> option jval)
    (data : list raw_record) : bool :=
  existsb (fun r => has_key (field r)) data.

Record columns : Type := {
  c_timestamp : bool;
  c_aqiValue : bool;
  c_city : bool;
  c_pm25 : bool;
  c_pm10 : bool;
  c_no2 : bool;
  c_so2 : bool;
  c_co : bool;
  c_o3 : bool
}.

Definition columns_of (data : list raw_record) : columns :=
  {| c_timestamp := has_column r_timestamp data;
     c_aqiValue := has_column r_aqiValue data;
     c_city := has_column r_city data;
     c_pm25 := has_column r_pm25 data;
     c_pm10 := has_column r_pm10 data;
     c_no2 := has_column r_no2 data;
     c_so2 := has_column r_so2 data;
     c_co := has_column r_co data;
     c_o3 := has_column r_o3 data |}.

(** The cell of a record in a column of the frame: a record without the key
    has the missing value there. *)
Definition cell (field : option jval) : jval :=
  match field with Some v => v | None => JNull end.

(** Sequencing of steps that may raise. *)
Fixpoint traverse {A B : Type} (f : A -> option B) (l : list A)
    : option (list B) :=
  match l with
  | [] => Some []
  | x :: rest =>
      match f x, traverse f rest with
      | Some y, Some ys => Some (y :: ys)
      | _, _ => None
      end
  end.

Section WithParsers.

(** The parsers of pandas and the clock are taken as given:
    [pd.to_datetime] on a string ([None] when it cannot be parsed),
    [pd.to_numeric] on a string, and [pd.to_datetime('now')]. *)
Variable parse_datetime : string -> option Z.
Variable parse_number : string -> option Q.
Variable now : Z.

(** [pd.to_datetime(..., errors='coerce')] on a cell: what cannot be parsed
    becomes [NaT]; a number is an offset from the epoch. *)
Definition to_datetime (v : jval) : option Z :=
  match v with
  | JNull => None
  | JNum q => Some (Qfloor q)
  | JStr s => parse_datetime s
  end.

(** [pd.to_numeric(..., errors='coerce')] on a cell. *)
Definition to_numeric (v : jval) : option Q :=
  match v with
  | JNull => None
  | JNum q => Some q
  | JStr s => parse_number s
  end.

(** The [timestamp] column: parsed when the column is there, else the
    ingestion time on every row. *)
Definition timestamp_column (cols : columns) (r : raw_record) : option Z :=
  if c_timestamp cols then to_datetime (cell (r_timestamp r)) else Some now.

(** The [aqiValue] column: kept when the column is there; else computed
    from [pm25] row by row when that column is there
    ([calculate_aqi_from_pm25(x) if pd.notnull(x) else 50]); else 50.
    [None] is the [TypeError] of [pm25 < 0] on a string. *)
Definition aqiValue_column (cols : columns) (r : raw_record) : option jval :=
  if c_aqiValue cols then Some (cell (r_aqiValue r))
  else if c_pm25 cols then
    match cell (r_pm25 r) with
    | JNull => Some (JNum 50)
    | JNum x =>
        Some (JNum (inject_Z (Converter.calculate_aqi_from_pm25 (Some x))))
    | JStr _ => None
    end
  else Some (JNum 50).

(** The [city] column. *)
Definition city_column (cols : columns) (r : raw_record) : jval :=
  if c_city cols then cell (r_city r) else JStr "Unknown".

(** A pollutant column: [pd.to_numeric] when the column is there, else
    [None] on every row. *)
Definition pollutant_column (present : bool) (field : option jval) : option Q :=
  if present then to_numeric (cell field) else None.

(** [self.get_aqi_category(x)] on a cell of the [aqiValue] column; [None]
    is the [TypeError] of comparing a string with a number. *)
Definition classify (v : jval) : option (option Q * (string * string)) :=
  match v with
  | JNull => Some (None, Classifier.get_aqi_category_cell None)
  | JNum x => Some (Some x, Classifier.get_aqi_category_cell (Some x))
  | JStr _ => None
  end.

(** One row of the frame, from its time stamp and its record. *)
Definition normalize_row (cols : columns) (row : option Z * raw_record)
    : option reading :=
  let '(ts, r) := row in
  match aqiValue_column cols r with
  | None => None
  | Some v =>
      match classify v with
      | None => None
      | Some (aqi, (category, color)) =>
          Some {| timestamp := ts;
                  city := city_column cols r;
                  aqiValue := aqi;
                  aqi_category := category;
                  aqi_color := color;
                  pm25 := pollutant_column (c_pm25 cols) (r_pm25 r);
                  pm10 := pollutant_column (c_pm10 cols) (r_pm10 r);
                  no2 := pollutant_column (c_no2 cols) (r_no2 r);
                  so2 := pollutant_column (c_so2 cols) (r_so2 r);
                  co := pollutant_column (c_co cols) (r_co r);
                  o3 := pollutant_column (c_o3 cols) (r_o3 r) |}
      end
  end.

(** [df.sort_values('timestamp')]: ascending, [NaT] last. *)
Definition by_timestamp (a b : option Z * raw_record) : bool :=
  Order.time_leb (fst a) (fst b).

Definition sort_values (cols : columns) (data : list raw_record)
    : list (option Z * raw_record) :=
  Order.sort by_timestamp (map (fun r => (timestamp_column cols r, r)) data).

(** [process_real_time_data] on a list of records; [None] is the raise. *)
Definition process_real_time_data (data : list raw_record)
    : option (list reading) :=
  let cols := columns_of data in
  traverse (normalize_row cols) (sort_values cols data).

End WithParsers.

(** *** The words of the specification *)

(** The AQI that step 3 of the normalizer promises to a record without
    [aqiValue]: the converter on its own PM2.5 when present, else 50. *)
Definition derived_aqi (r : raw_record) : Z :=
  match r_pm25 r with
  | Some (JNum x) => Converter.calculate_aqi_from_pm25 (Some x)
  | _ => 50%Z
  end.

(** A field that is a number, null or absent. *)
Definition numeric_or_missing (field : option jval) : bool :=
  match field with
  | Some (JStr _) => false
  | _ => true
  end.

(** Parsers for the examples: one date is known, no string is a number. *)
Definition example_datetime (s : string) : option Z :=
  if String.eqb s "2024-01-01 00:00:00" then Some 1704067200%Z else None.

Definition example_number (s : string) : option Q := None.

Definition ingestion_time : Z := 1704070800%Z.

(** Records for the examples. *)
Definition good_record : raw_record :=
  {| r_timestamp := Some (JStr "2024-01-01 00:00:00");
     r_aqiValue := Some (JNum 40); r_city := None;
     r_pm25 := Some (JNum 10); r_pm10 := None; r_no2 := None; r_so2 := None;
     r_co := None; r_o3 := None |}.

Definition bad_record : raw_record :=
  {| r_timestamp := Some (JStr "not-a-date");
     r_aqiValue := Some (JNum 42); r_city := None;
     r_pm25 := None; r_pm10 := None; r_no2 := None; r_so2 := None;
     r_co := None; r_o3 := None |}.

Definition pm25_only_record : raw_record :=
  {| r_timestamp := None; r_aqiValue := None; r_city := None;
     r_pm25 := Some (JNum 40); r_pm10 := None; r_no2 := None; r_so2 := None;
     r_co := None; r_o3 := None |}.

Definition example_run (data : list raw_record) : option (list reading) :=
  process_real_time_data example_datetime example_number ingestion_time data.

End Normalizer.

(** ** What the charts and reports compute from the AQI values
    ([create_aqi_categories_pie_chart], [create_pollution_distribution_chart],
    [create_histogram], the health recommendations of the two PDF reports) *)

Module Charts.

Local Open Scope string_scope.

(** [self.aqi_categories.get(category)]: a dict lookup by key. *)
Fixpoint get (category : string) (table : list (string * (Q * Q * string)))
    : option (Q * Q * string) :=
  match table with
  | [] => None
  | (name, entry) :: rest =>
      if String.eqb category name then Some entry else get category rest
  end.

(** [self.aqi_categories.get(category, '#888888')[2]] of the pie chart: the
    third component of the entry; for a key that the dict does not have, the
    third character of the default string. *)
Definition pie_color (category : string) : string :=
  match get category Classifier.aqi_categories with
  | Some (_, _, color) => color
  | None => "8"
  end.

(** The values of the local dict [ranges] of
    [create_pollution_distribution_chart], in order. *)
Definition ranges : list (Q * Q) :=
  [ (0, 50); (51, 100); (101, 150); (151, 200); (201, 300); (301, 1000) ].

(** A comparison of a cell of the AQI column with a number; on [NaN] it is
    false. *)
Definition cell_ge (min_val : Q) (cell : option Q) : bool :=
  match cell with Some v => Num.leb min_val v | None => false end.

Definition cell_le (cell : option Q) (max_val : Q) : bool :=
  match cell with Some v => Num.leb v max_val | None => false end.

Definition cell_lt (cell : option Q) (max_val : Q) : bool :=
  match cell with Some v => Num.ltb v max_val | None => false end.

(** The body of the loop over [ranges.values()]: the last range ("301+")
    has no upper end. *)
Definition range_count (aqi : list (option Q)) (r : Q * Q) : nat :=
  let '(min_val, max_val) := r in
  if Qeq_bool max_val 1000
  then List.length (filter (fun c => cell_ge min_val c) aqi)
  else List.length (filter (fun c => cell_ge min_val c && cell_le c max_val) aqi).

Definition distribution_counts (aqi : list (option Q)) : list nat :=
  map (range_count aqi) ranges.

(** [bins] and [colors] of [create_histogram]. *)
Definition bins : list Q := [0; 50; 100; 150; 200; 300; 500].

Definition colors : list string :=
  [ "#00ff88"; "#ffff00"; "#ff8800"; "#ff0000"; "#8800ff"; "#880000" ].

(** [ax.hist(values, bins=edges)], that is [np.histogram]: a bin holds the
    values from its left edge up to, not including, its right edge; the last
    bin includes its right edge; values outside the edges and [NaN] are not
    counted. *)
Fixpoint histogram (edges : list Q) (values : list (option Q)) : list nat :=
  match edges with
  | lo :: ((hi :: rest) as tail) =>
      List.length
        (filter (fun c => cell_ge lo c
                          && match rest with
                             | [] => cell_le c hi
                             | _ :: _ => cell_lt c hi
                             end) values)
      :: histogram tail values
  | _ => []
  end.

(** The colours of the bars that are not empty: [patch.set_facecolor(colors[i])]
    for the patches, of which those with [count > 0] get a label. *)
Definition filled_bar_colors (values : list (option Q)) : list string :=
  map fst (filter (fun p => (0 <? snd p)%nat)
                  (combine colors (histogram bins values))).

(** The four health texts of the PDF reports, by their headings. *)
Inductive advice : Type :=
| GoodAirQuality            (* "Good Air Quality (0-50 AQI)" *)
| ModerateAirQuality        (* "Moderate Air Quality (51-100 AQI)" *)
| UnhealthyForSensitive     (* "Unhealthy for Sensitive Groups (101-150 AQI)" *)
| UnhealthyAirQuality.      (* "Unhealthy Air Quality (151+ AQI)" *)

(** [if avg_aqi <= 50: ... elif avg_aqi <= 100: ... elif avg_aqi <= 150: ...
    else: ...] *)
Definition health_text (avg_aqi : Q) : advice :=
  if Num.leb avg_aqi 50 then GoodAirQuality
  else if Num.leb avg_aqi 100 then ModerateAirQuality
  else if Num.leb avg_aqi 150 then UnhealthyForSensitive
  else UnhealthyAirQuality.

(** The category that the heading of a health text names. *)
Definition heading_category (a : advice) : string :=
  match a with
  | GoodAirQuality => "Good"
  | ModerateAirQuality => "Moderate"
  | UnhealthyForSensitive => "Unhealthy for Sensitive Groups"
  | UnhealthyAirQuality => "Unhealthy"
  end.

(** The sum of a list of counts. *)
Definition total (counts : list nat) : nat := fold_right Nat.add 0%nat counts.

End Charts.

(** ** The whole statistics record ([calculate_statistics] of both files)

    The two [calculate_statistics] differ in the name of the AQI column
    ([aqiValue], [aqi_value]) and in the two fields [scenario] and
    [data_info] that the database one copies from its arguments.  The frame
    is taken with complete [timestamp] and AQI columns (no [NaT], no
    [NaN]); the fields [start_date] and [end_date], which [strftime]
    formats, are left out. *)

Module Aggregator.

Local Open Scope string_scope.

(** The local list [pollutants]. *)
Inductive pollutant : Type := PM25 | PM10 | NO2 | SO2 | CO | O3.

Definition pollutants : list pollutant := [PM25; PM10; NO2; SO2; CO; O3].

(** A row of the frame. *)
Record row : Type := {
  timestamp : Z;
  aqi : Q;
  aqi_category : string;
  concentration : pollutant -> option Q     (* NaN is None *)
}.

(** [Series.dropna()]. *)
Fixpoint dropna (l : list (option Q)) : list Q :=
  match l with
  | [] => []
  | Some v :: rest => v :: dropna rest
  | None :: rest => dropna rest
  end.

(** [df['aqi_category'].value_counts().to_dict()]: a dict from the
    categories that occur to the number of their rows.  The dict is kept in
    the order of first occurrence; it is read by key. *)
Fixpoint bump (category : string) (counts : list (string * nat))
    : list (string * nat) :=
  match counts with
  | [] => [(category, 1%nat)]
  | (name, n) :: rest =>
      if String.eqb category name then (name, S n) :: rest
      else (name, n) :: bump category rest
  end.

Definition value_counts (categories : list string) : list (string * nat) :=
  fold_left (fun counts category => bump category counts) categories [].

(** [d.get(key, 0)] on such a dict. *)
Fixpoint count_for (category : string) (counts : list (string * nat)) : nat :=
  match counts with
  | [] => 0%nat
  | (name, n) :: rest =>
      if String.eqb category name then n else count_for category rest
  end.

(** One pass of the loop over [pollutants]: [None] when every value of the
    column is missing, else [round(df[pollutant].mean(), 2)], the mean of
    the values that are there. *)
Definition pollutant_average (p : pollutant) (df : list row) : option Q :=
  match dropna (map (fun r => concentration r p) df) with
  | [] => None
  | present => Some (Num.round2 (Stats.mean present))
  end.

(** [df['aqiValue'].idxmax()]: the first row with the greatest AQI. *)
Fixpoint idxmax (best : row) (rest : list row) : row :=
  match rest with
  | [] => best
  | r :: rest' =>
      if Num.ltb (aqi best) (aqi r) then idxmax r rest' else idxmax best rest'
  end.

(** [Timestamp.hour], on seconds. *)
Definition hour (t : Z) : Z := ((t / 3600) mod 24)%Z.

(** [df['timestamp'].min()] and [.max()] of a non-empty column. *)
Definition earliest (t : Z) (rest : list Z) : Z := fold_left Z.min rest t.
Definition latest (t : Z) (rest : list Z) : Z := fold_left Z.max rest t.

Record statistics : Type := {
  aqi_statistics : Stats.stats;   (* total_records ... std_aqi, trend *)
  duration_hours : Q;
  category_distribution : list (string * nat);
  pollutant_averages : list (pollutant * option Q);
  peak_pollution_hour : Z
}.

(** [calculate_statistics]; [None] is the raise on an empty frame. *)
Definition calculate_statistics (df : list row) : option statistics :=
  match df, Stats.calculate_statistics (map aqi df) with
  | first :: rest, Some basic =>
      Some {| aqi_statistics := basic;
              duration_hours :=
                Num.round2
                  (inject_Z (latest (timestamp first) (map timestamp rest)
                             - earliest (timestamp first) (map timestamp rest))
                   / 3600);
              category_distribution := value_counts (map aqi_category df);
              pollutant_averages :=
                map (fun p => (p, pollutant_average p df)) pollutants;
              peak_pollution_hour := hour (timestamp (idxmax first rest)) |}
  | _, _ => None
  end.

(** A row of the normalizer's frame as a row here, when its time stamp and
    its AQI are there. *)
Definition of_reading (n : Normalizer.reading) : option row :=
  match Normalizer.timestamp n, Normalizer.aqiValue n with
  | Some t, Some a =>
      Some {| timestamp := t; aqi := a;
              aqi_category := Normalizer.aqi_category n;
              concentration := fun p =>
                match p with
                | PM25 => Normalizer.pm25 n
                | PM10 => Normalizer.pm10 n
                | NO2 => Normalizer.no2 n
                | SO2 => Normalizer.so2 n
                | CO => Normalizer.co n
                | O3 => Normalizer.o3 n
                end |}
  | _, _ => None
  end.

(** A small frame for examples: three readings of one morning. *)
Definition sample_frame : list row :=
  [ {| timestamp := 1704096000; aqi := 42; aqi_category := "Good";
       concentration := fun p =>
         match p with PM25 => Some 10.1 | _ => None end |};
    {| timestamp := 1704099600; aqi := 180; aqi_category := "Unhealthy";
       concentration := fun p => None |};
    {| timestamp := 1704103200; aqi := 180; aqi_category := "Unhealthy";
       concentration := fun p =>
         match p with PM25 => Some 150.3 | _ => None end |} ].

(** Two incoming records with a PM2.5 value and no AQI. *)
Definition sample_batch : list Normalizer.raw_record :=
  [ {| Normalizer.r_timestamp := Some (Normalizer.JNum 7200);
       Normalizer.r_aqiValue := None; Normalizer.r_city := None;
       Normalizer.r_pm25 := Some (Normalizer.JNum 40);
       Normalizer.r_pm10 := None; Normalizer.r_no2 := None;
       Normalizer.r_so2 := None; Normalizer.r_co := None;
       Normalizer.r_o3 := None |};
    {| Normalizer.r_timestamp := Some (Normalizer.JNum 3600);
       Normalizer.r_aqiValue := None; Normalizer.r_city := None;
       Normalizer.r_pm25 := Some (Normalizer.JNum 12.05);
       Normalizer.r_pm10 := None; Normalizer.r_no2 := None;
       Normalizer.r_so2 := None; Normalizer.r_co := None;
       Normalizer.r_o3 := None |} ].

End Aggregator.

(** ** The database path, further *)

Module DatabasePath.

Local Open Scope string_scope.

(** The text of the exception that [fetch_data_from_database] raises for a
    city without rows: its own sentence, the message of the dict after it,
    and the prefix of the outer [except]. *)
Definition city_not_found (city_name : string) : string :=
  "Database query failed: "
  ++ ("City '" ++ city_name ++ "' not found in database. "
      ++ ("City '" ++ city_name ++ "' not found in database")).

End DatabasePath.

(** ** The service manager ([service_manager.py]) *)

Module ServiceManager.

Local Open Scope string_scope.

(** [s.split(sep)[0]] for a separator that is not empty: the part of [s]
    before the first occurrence of [sep], all of [s] when there is none. *)
Fixpoint before (sep s : string) {struct s} : string :=
  if String.prefix sep s then ""
  else match s with
       | EmptyString => ""
       | String c rest => String c (before sep rest)
       end.

(** [sep in s] *)
Fixpoint occurs (sep s : string) {struct s} : bool :=
  String.prefix sep s
  || match s with
     | EmptyString => false
     | String _ rest => occurs sep rest
     end.

(** [package.split('>=')[0].split('==')[0].split('<')[0]] *)
Definition pkg_name (package : string) : string :=
  before "<" (before "==" (before ">=" package)).

(** The characters [-] and [_], by their codes. *)
Definition dash : Ascii.ascii := Ascii.ascii_of_nat 45.
Definition underscore : Ascii.ascii := Ascii.ascii_of_nat 95.

(** [name.replace('-', '_')] *)
Fixpoint replace_dash (s : string) : string :=
  match s with
  | EmptyString => EmptyString
  | String c rest =>
      String (if Ascii.eqb c dash then underscore else c) (replace_dash rest)
  end.

(** The seven requirements that [get_required_packages] returns when there
    is no [requirements.txt]. *)
Definition default_requirements : list string :=
  [ "pandas>=1.3.0"; "numpy>=1.21.0"; "matplotlib>=3.5.0"; "seaborn>=0.11.0";
    "reportlab>=3.6.0"; "PyMySQL>=1.0.0"; "SQLAlchemy>=1.4.0" ].

(** How [importlib.import_module] ends on a module name: the module is
    imported, [ImportError] is raised, or another exception is raised (as
    [ValueError] for an empty name). *)
Inductive import_outcome : Type :=
| Imported
| ImportError
| OtherError.

(** What the manager finds around it: whether [.setup_complete] exists, the
    version of Python, the packages that [get_required_packages] returns,
    how [importlib.import_module] ends on a module name, and for which
    requirements [pip install] ends with return code 0. *)
Record environment : Type := {
  setup_complete : bool;
  version : nat * nat;
  required_packages : list string;
  import_module : string -> import_outcome;
  pip_installs : string -> bool
}.

(** [check_python_version]: [false] is the [RuntimeError]. *)
Definition check_python_version (v : nat * nat) : bool :=
  let '(major, minor) := v in
  negb ((major <? 3)%nat || ((major =? 3)%nat && (minor <? 7)%nat)).

(** [check_package_installed]: the name is cut at the version specifier
    (again) and imported with [-] replaced by [_].  Only [ImportError] is
    caught: [None] is another exception, which leaves the function. *)
Definition check_package_installed (env : environment)
    (package_name : string) : option bool :=
  match import_module env (replace_dash (pkg_name package_name)) with
  | Imported => Some true
  | ImportError => Some false
  | OtherError => None
  end.

(** The loop that collects [missing_packages]; [None] when a check
    raises. *)
Fixpoint missing_packages (env : environment) (required : list string)
    : option (list string) :=
  match required with
  | [] => Some []
  | package :: rest =>
      match check_package_installed env (pkg_name package) with
      | None => None
      | Some installed =>
          match missing_packages env rest with
          | None => None
          | Some missing =>
              Some (if installed then missing else package :: missing)
          end
      end
  end.

(** What [setup_dependencies] does to the outside. *)
Inductive action : Type :=
| UpgradePip
| Install (package : string)
| Touch.      (* self.setup_complete_file.touch() *)

(** [setup_dependencies]: the value it returns ([None] when it raises) and
    what it did, in order.  The printed lines are left out.
    [install_package] catches every exception, and so does the upgrade of
    pip. *)
Definition setup_dependencies (env : environment)
    : option bool * list action :=
  if setup_complete env then (Some true, [])
  else if negb (check_python_version (version env)) then (Some false, [])
  else
    match missing_packages env (required_packages env) with
    | None => (None, [])
    | Some [] => (Some true, [Touch])
    | Some ((_ :: _) as missing) =>
        let failed_packages :=
          filter (fun package => negb (pip_installs env package)) missing in
        match failed_packages with
        | [] => (Some true, ((UpgradePip :: map Install missing) ++ [Touch])%list)
        | _ :: _ => (Some false, UpgradePip :: map Install missing)
        end
    end.

(** Whether [.setup_complete] exists after the actions. *)
Definition setup_complete_after (env : environment) (done : list action)
    : bool :=
  setup_complete env
  || existsb (fun a => match a with Touch => true | _ => false end) done.

(** The requirements that were handed to [pip install], in order. *)
Fixpoint installs (done : list action) : list string :=
  match done with
  | [] => []
  | Install package :: rest => package :: installs rest
  | _ :: rest => installs rest
  end.

(** The requirements whose module cannot be imported. *)
Definition not_importable (env : environment) (package : string) : bool :=
  match import_module env (replace_dash (pkg_name package)) with
  | ImportError => true
  | _ => false
  end.

(** The requirements on which the import breaks in another way. *)
Definition import_breaks (env : environment) (package : string) : Prop :=
  import_module env (replace_dash (pkg_name package)) = OtherError.

(** An environment for examples: a fresh installation on Python 3.11 with
    pandas and numpy at hand, where every installation succeeds. *)
Definition sample_environment : environment :=
  {| setup_complete := false;
     version := (3, 11)%nat;
     required_packages := default_requirements;
     import_module := fun m =>
       if String.eqb m "pandas" || String.eqb m "numpy" then Imported
       else ImportError;
     pip_installs := fun _ => true |}.

(** The same with a requirement that has no name before its specifier. *)
Definition broken_environment : environment :=
  {| setup_complete := false;
     version := (3, 11)%nat;
     required_packages := ["pandas>=1.3.0"; "<2.0"];
     import_module := fun m =>
       if String.eqb m "" then OtherError
       else if String.eqb m "pandas" then Imported else ImportError;
     pip_installs := fun _ => true |}.

End ServiceManager.
(** * Properties *)

(** ** Rounding *)

Section Rounding.

Lemma Qfloor_frac (x : Q) : 0 <= x - inject_Z (Qfloor x) /\ x - inject_Z (Qfloor x) < 1.
Proof.
  pose proof (Qfloor_le x) as Hle.
  pose proof (Qlt_floor x) as Hlt.
  rewrite inject_Z_plus in Hlt. change (inject_Z 1) with 1 in Hlt.
  split; lra.
Qed.

Lemma round_half_even_cases (x : Q) :
  Num.round_half_even x = Qfloor x \/
  (Num.round_half_even x = (Qfloor x + 1)%Z /\ (1 # 2) <= x - inject_Z (Qfloor x)).
Proof.
  unfold Num.round_half_even.
  destruct (Qcompare_spec (x - inject_Z (Qfloor x)) (1 # 2)) as [He | Hl | Hg].
  - destruct (Z.even (Qfloor x)); [now left | right; split; [reflexivity | lra]].
  - now left.
  - right; split; [reflexivity | lra].
Qed.

Lemma round_half_even_lower (a : Z) (x : Q) :
  inject_Z a <= x -> (a <= Num.round_half_even x)%Z.
Proof.
  intros Hax.
  assert (a <= Qfloor x)%Z as Hf.
  { rewrite <- (Qfloor_Z a). now apply Qfloor_resp_le. }
  destruct (round_half_even_cases x) as [-> | [-> _]]; lia.
Qed.

Lemma round_half_even_upper (b : Z) (x : Q) :
  x <= inject_Z b -> (Num.round_half_even x <= b)%Z.
Proof.
  intros Hxb.
  assert (Qfloor x <= b)%Z as Hf.
  { rewrite <- (Qfloor_Z b). now apply Qfloor_resp_le. }
  destruct (round_half_even_cases x) as [-> | [-> Hhalf]]; [exact Hf|].
  assert (inject_Z (Qfloor x) < inject_Z b) as Hlt by lra.
  rewrite <- Zlt_Qlt in Hlt. lia.
Qed.

(** Rounding is monotone. *)
Lemma round_half_even_mono (x y : Q) :
  x <= y -> (Num.round_half_even x <= Num.round_half_even y)%Z.
Proof.
  intros Hxy.
  pose proof (Qfloor_resp_le _ _ Hxy) as Hf.
  destruct (Z.eq_dec (Qfloor x) (Qfloor y)) as [Heq | Hne].
  - unfold Num.round_half_even. rewrite <- Heq.
    destruct (Qcompare_spec (x - inject_Z (Qfloor x)) (1 # 2)) as [Hx | Hx | Hx];
    destruct (Qcompare_spec (y - inject_Z (Qfloor x)) (1 # 2)) as [Hy | Hy | Hy];
      try lia; try lra;
      destruct (Z.even (Qfloor x)); try lia; lra.
  - destruct (round_half_even_cases x) as [-> | [-> _]];
    destruct (round_half_even_cases y) as [-> | [-> _]]; lia.
Qed.

(** Rounding does not see which fraction represents the number. *)
Lemma round_half_even_comp (x y : Q) :
  x == y -> Num.round_half_even x = Num.round_half_even y.
Proof.
  intros Hxy. unfold Num.round_half_even.
  rewrite (Qfloor_comp _ _ Hxy).
  assert (x - inject_Z (Qfloor y) == y - inject_Z (Qfloor y)) as Hd by lra.
  now rewrite (Qcompare_comp _ _ Hd _ _ (Qeq_refl (1 # 2))).
Qed.

(** On an exact tie [k + 1/2] the even neighbour is returned. *)
Lemma round_half_even_tie (k : Z) (x : Q) :
  x == inject_Z k + (1 # 2) ->
  Num.round_half_even x = if Z.even k then k else (k + 1)%Z.
Proof.
  intros Hx.
  assert (Qfloor x = k) as Hf.
  { pose proof (Qfloor_le x) as H1. pose proof (Qlt_floor x) as H2.
    rewrite inject_Z_plus in H2. change (inject_Z 1) with 1 in H2.
    assert (inject_Z (Qfloor x) < inject_Z (k + 1)) as Ha.
    { rewrite inject_Z_plus. change (inject_Z 1) with 1. lra. }
    assert (inject_Z k < inject_Z (Qfloor x + 1)) as Hb.
    { rewrite inject_Z_plus. change (inject_Z 1) with 1. lra. }
    rewrite <- Zlt_Qlt in Ha, Hb. lia. }
  unfold Num.round_half_even. rewrite Hf.
  assert (x - inject_Z k == 1 # 2) as Hd by lra.
  rewrite (Qcompare_comp _ _ Hd _ _ (Qeq_refl (1 # 2))).
  reflexivity.
Qed.

Lemma leb_true (a b : Q) : Num.leb a b = true <-> a <= b.
Proof. apply Qle_bool_iff. Qed.

Lemma leb_false (a b : Q) : Num.leb a b = false <-> b < a.
Proof.
  unfold Num.leb. split; intros H.
  - apply Qnot_le_lt. intros Hle. apply Qle_bool_iff in Hle. congruence.
  - apply not_true_is_false. intros Hle. apply Qle_bool_iff in Hle. lra.
Qed.

Lemma ltb_true (a b : Q) : Num.ltb a b = true <-> a < b.
Proof.
  unfold Num.ltb. rewrite negb_true_iff. apply leb_false.
Qed.

Lemma ltb_false (a b : Q) : Num.ltb a b = false <-> b <= a.
Proof.
  unfold Num.ltb. rewrite negb_false_iff. apply leb_true.
Qed.

Lemma leb_inject_Z (a b : Z) : Num.leb (inject_Z a) (inject_Z b) = (a <=? b)%Z.
Proof.
  unfold Num.leb, Qle_bool. simpl. now rewrite !Z.mul_1_r.
Qed.

End Rounding.

(** ** The classifier *)

Section ClassifierFacts.

Import Classifier.
Local Open Scope string_scope.

(** No range of the table starts below zero. *)
Lemma aqi_categories_min_nonneg :
  Forall (fun e => 0 <= fst (fst (snd e))) aqi_categories.
Proof.
  unfold aqi_categories. repeat constructor; simpl; lra.
Qed.

Lemma scan_categories_below (table : list (string * (Q * Q * string))) (v : Q) :
  Forall (fun e => 0 <= fst (fst (snd e))) table ->
  v < 0 ->
  scan_categories table v = ("Hazardous", "#880000").
Proof.
  intros Hmin Hv. induction Hmin as [| [name [[lo hi] color]] rest Hlo _ IH].
  - reflexivity.
  - simpl in *.
    assert (Num.leb lo v = false) as -> by (apply leb_false; lra).
    simpl. exact IH.
Qed.

Lemma matching_below (v : Q) : v < 0 -> matching v = [].
Proof.
  intros Hneg. unfold matching, aqi_categories, filter, in_range.
  repeat match goal with
  | |- context [Num.leb ?lo v] =>
      replace (Num.leb lo v) with false by (symmetry; apply leb_false; lra)
  end.
  reflexivity.
Qed.

(** C10. Every negative AQI value is classified ('Hazardous', '#880000'):
    no range of the table contains it, so the loop of [get_aqi_category]
    falls through to the final return. *)
Theorem get_aqi_category_negative (aqi_value : Q) :
  aqi_value < 0 ->
  matching aqi_value = [] /\
  get_aqi_category aqi_value = ("Hazardous", "#880000").
Proof.
  intros Hneg. split.
  - now apply matching_below.
  - apply scan_categories_below; [apply aqi_categories_min_nonneg | exact Hneg].
Qed.

Lemma get_aqi_category_negative_witness :
  -5 < 0 /\ get_aqi_category (-5) = ("Hazardous", "#880000").
Proof.
  split; [reflexivity | apply (get_aqi_category_negative (-5)); reflexivity].
Defined.


(** On whole numbers the six ranges do partition 0..500: exactly one entry
    matches and the classifier returns its name and colour. *)
Lemma get_aqi_category_whole (z : Z) :
  (0 <= z <= 500)%Z ->
  exists e, matching (inject_Z z) = [e] /\
            get_aqi_category (inject_Z z) = (fst e, snd (snd e)).
Proof.
  intros Hz.
  unfold get_aqi_category, matching, aqi_categories, scan_categories, filter,
    in_range.
  change 0 with (inject_Z 0); change 50 with (inject_Z 50);
  change 51 with (inject_Z 51); change 100 with (inject_Z 100);
  change 101 with (inject_Z 101); change 150 with (inject_Z 150);
  change 151 with (inject_Z 151); change 200 with (inject_Z 200);
  change 201 with (inject_Z 201); change 300 with (inject_Z 300);
  change 301 with (inject_Z 301); change 500 with (inject_Z 500).
  rewrite !leb_inject_Z.
  repeat match goal with
  | |- context [(?a <=? ?b)%Z] => destruct (Z.leb_spec a b); try lia
  end; simpl; eexists; split; reflexivity.
Qed.

(** Above 500 the fall-through is taken, as the table intends. *)
Lemma get_aqi_category_above (v : Q) :
  500 < v -> get_aqi_category v = ("Hazardous", "#880000").
Proof.
  intros Hv.
  unfold get_aqi_category, aqi_categories, scan_categories, in_range.
  repeat match goal with
  | |- context [Num.leb v ?hi] =>
      replace (Num.leb v hi) with false by (symmetry; apply leb_false; lra)
  end.
  rewrite !andb_false_r. reflexivity.
Qed.

Lemma matching_above (v : Q) : 500 < v -> matching v = [].
Proof.
  intros Hv. unfold matching, aqi_categories, filter, in_range.
  repeat match goal with
  | |- context [Num.leb v ?hi] =>
      replace (Num.leb v hi) with false by (symmetry; apply leb_false; lra)
  end.
  rewrite !andb_false_r. reflexivity.
Qed.



End ClassifierFacts.

(** ** The PM2.5 converter *)

(** Replaces the constant slope of a breakpoint by its value. *)
Ltac eval_slope :=
  repeat match goal with
  | |- context [ ?a / ?b ] =>
      let v := eval vm_compute in (Qred (a / b)) in
      let E := fresh "E" in
      assert (E : a / b == v) by reflexivity; rewrite E; clear E
  end.

(** Turns the boolean tests on the concentration into inequalities. *)
Ltac tests_to_props :=
  repeat match goal with
  | H : _ && _ = true |- _ => apply andb_true_iff in H; destruct H
  | H : _ && _ = false |- _ => apply andb_false_iff in H
  | H : Num.leb _ _ = true |- _ => apply leb_true in H
  | H : Num.leb _ _ = false |- _ => apply leb_false in H
  | H : Num.ltb _ _ = true |- _ => apply ltb_true in H
  | H : Num.ltb _ _ = false |- _ => apply ltb_false in H
  end.

Section ConverterFacts.

Import Converter.

(** Inside its breakpoint the interpolated value stays between the two AQI
    ends of that breakpoint. *)
Lemma interpolate_bounds (bp : Q * Q * Q * Q) (c : Q) :
  In bp breakpoints -> covers bp c = true ->
  snd (fst bp) <= interpolate bp c /\ interpolate bp c <= snd bp.
Proof.
  unfold breakpoints. intros Hin Hc.
  repeat (destruct Hin as [<- | Hin]; [
    unfold covers in Hc; tests_to_props;
    unfold interpolate; simpl fst; simpl snd; eval_slope; split; lra |]).
  destruct Hin.
Qed.

(** The interpolation of one breakpoint is non-decreasing. *)
Lemma interpolate_mono (bp : Q * Q * Q * Q) (c1 c2 : Q) :
  In bp breakpoints -> c1 <= c2 -> interpolate bp c1 <= interpolate bp c2.
Proof.
  unfold breakpoints. intros Hin Hc.
  repeat (destruct Hin as [<- | Hin]; [
    unfold interpolate; eval_slope; lra |]).
  destruct Hin.
Qed.

Lemma breakpoints_aqi_ends (bp : Q * Q * Q * Q) :
  In bp breakpoints -> 0 <= snd (fst bp) /\ snd bp <= 500.
Proof.
  unfold breakpoints. intros Hin.
  repeat (destruct Hin as [<- | Hin]; [simpl; split; lra |]).
  destruct Hin.
Qed.

Lemma round_interpolate_range (bp : Q * Q * Q * Q) (c : Q) :
  In bp breakpoints -> covers bp c = true ->
  (0 <= Num.round_half_even (interpolate bp c) <= 500)%Z.
Proof.
  intros Hin Hc.
  destruct (interpolate_bounds bp c Hin Hc) as [Hlo Hhi].
  destruct (breakpoints_aqi_ends bp Hin) as [Hlo0 Hhi500].
  split.
  - apply round_half_even_lower. change (inject_Z 0) with 0. lra.
  - apply round_half_even_upper. change (inject_Z 500) with 500. lra.
Qed.

Lemma scan_breakpoints_range (bps : list (Q * Q * Q * Q)) (c : Q) :
  incl bps breakpoints ->
  (0 <= scan_breakpoints bps c <= 500)%Z.
Proof.
  induction bps as [| bp rest IH]; intros Hincl; simpl.
  - lia.
  - destruct (covers bp c) eqn:Hc.
    + apply round_interpolate_range; [apply Hincl; now left | exact Hc].
    + apply IH. intros x Hx. apply Hincl. now right.
Qed.

(** C9. [calculate_aqi_from_pm25] returns on every input, the result is an
    integer between 0 and 500, and a missing or negative concentration
    gives exactly 50. *)
Theorem calculate_aqi_from_pm25_total (pm25 : option Q) :
  (0 <= calculate_aqi_from_pm25 pm25 <= 500)%Z /\
  ((pm25 = None \/ exists c, pm25 = Some c /\ c < 0) ->
   calculate_aqi_from_pm25 pm25 = 50%Z).
Proof.
  split.
  - destruct pm25 as [c |]; unfold calculate_aqi_from_pm25; [| lia].
    destruct (Num.ltb c 0); [lia | apply scan_breakpoints_range, incl_refl].
  - intros [-> | [c [-> Hneg]]]; unfold calculate_aqi_from_pm25;
      [reflexivity |].
    apply ltb_true in Hneg. now rewrite Hneg.
Qed.

Lemma scan_breakpoints_covered (bps : list (Q * Q * Q * Q)) (c : Q) :
  existsb (fun bp => covers bp c) bps = true ->
  exists bp, In bp bps /\ covers bp c = true /\
             scan_breakpoints bps c = Num.round_half_even (interpolate bp c).
Proof.
  induction bps as [| bp rest IH]; simpl; [discriminate |].
  destruct (covers bp c) eqn:Hc; simpl.
  - intros _. exists bp. auto.
  - intros Hex. destruct (IH Hex) as [bp' [Hin [Hc' Hscan]]].
    exists bp'. auto.
Qed.

Lemma scan_breakpoints_beyond (c : Q) :
  500.4 < c -> scan_breakpoints breakpoints c = 500%Z.
Proof.
  intros Hc. unfold breakpoints. cbn [scan_breakpoints]. unfold covers.
  repeat match goal with
  | |- context [Num.leb c ?hi] =>
      replace (Num.leb c hi) with false by (symmetry; apply leb_false; lra)
  end.
  rewrite !andb_false_r. reflexivity.
Qed.

(** Across the table: a smaller concentration never interpolates to a
    larger value, whichever breakpoints cover the two. *)
Lemma interpolate_mono_across (bp1 bp2 : Q * Q * Q * Q) (c1 c2 : Q) :
  In bp1 breakpoints -> In bp2 breakpoints ->
  covers bp1 c1 = true -> covers bp2 c2 = true ->
  c1 <= c2 ->
  interpolate bp1 c1 <= interpolate bp2 c2.
Proof.
  unfold breakpoints. intros H1 H2 Hc1 Hc2 Hle.
  repeat (destruct H1 as [<- | H1]; [
    repeat (destruct H2 as [<- | H2]; [
      unfold covers in Hc1, Hc2; tests_to_props;
      unfold interpolate; eval_slope; lra |]);
    destruct H2 |]).
  destruct H1.
Qed.

(** What does hold of the claimed monotonicity: it holds between
    concentrations that some breakpoint covers (every value written with
    one decimal is) or that lie beyond the last breakpoint. *)
Lemma calculate_aqi_from_pm25_mono_covered (c1 c2 : Q) :
  existsb (fun bp => covers bp c1) breakpoints = true ->
  existsb (fun bp => covers bp c2) breakpoints = true \/ 500.4 < c2 ->
  c1 <= c2 ->
  (calculate_aqi_from_pm25 (Some c1) <= calculate_aqi_from_pm25 (Some c2))%Z.
Proof.
  intros Hin1 Hin2 Hle.
  destruct (scan_breakpoints_covered _ _ Hin1) as [bp1 [Hb1 [Hc1 Hs1]]].
  assert (0 <= c1) as Hpos1.
  { revert Hb1 Hc1. unfold breakpoints. intros Hb1 Hc1.
    repeat (destruct Hb1 as [<- | Hb1]; [
      unfold covers in Hc1; tests_to_props; lra |]).
    destruct Hb1. }
  unfold calculate_aqi_from_pm25.
  assert (Num.ltb c1 0 = false) as -> by (apply ltb_false; exact Hpos1).
  assert (Num.ltb c2 0 = false) as -> by (apply ltb_false; lra).
  destruct Hin2 as [Hin2 | Hbeyond].
  - destruct (scan_breakpoints_covered _ _ Hin2) as [bp2 [Hb2 [Hc2 Hs2]]].
    rewrite Hs1, Hs2. apply round_half_even_mono.
    now apply interpolate_mono_across.
  - rewrite (scan_breakpoints_beyond c2 Hbeyond).
    apply scan_breakpoints_range, incl_refl.
Qed.

Lemma calculate_aqi_from_pm25_total_witness :
  calculate_aqi_from_pm25 (Some (-5)) = 50%Z /\
  calculate_aqi_from_pm25 None = 50%Z.
Proof.
  split.
  - apply (calculate_aqi_from_pm25_total (Some (-5))).
    right. exists (-5). split; reflexivity.
  - apply (calculate_aqi_from_pm25_total None). left. reflexivity.
Defined.

End ConverterFacts.

Section ConverterClaims.

Import Converter.

(** C1, at the first breakpoint boundary and in the gap behind it.  The
    two boundary values are as claimed, 12.0 gives 50 and 12.1 gives 51;
    but 12.05 lies between the two breakpoints, no tuple covers it, the loop
    of [calculate_aqi_from_pm25] ends and the final [return 500] answers: a
    smaller concentration gets the larger index. *)
Theorem calculate_aqi_from_pm25_gap :
  calculate_aqi_from_pm25 (Some 12.0) = 50%Z /\
  calculate_aqi_from_pm25 (Some 12.1) = 51%Z /\
  0 <= 12.05 /\ 12.05 <= 12.1 /\
  calculate_aqi_from_pm25 (Some 12.05) = 500%Z /\
  (calculate_aqi_from_pm25 (Some 12.1%Q)
     < calculate_aqi_from_pm25 (Some 12.05%Q))%Z.
Proof.
  repeat split; try reflexivity; unfold Qle; simpl; lia.
Qed.


(** The breakpoint that covers a concentration is the one the loop uses. *)
Lemma scan_breakpoints_unique (bp : Q * Q * Q * Q) (c : Q) :
  In bp breakpoints -> covers bp c = true ->
  calculate_aqi_from_pm25 (Some c) = Num.round_half_even (interpolate bp c).
Proof.
  intros Hin Hc.
  assert (existsb (fun b => covers b c) breakpoints = true) as Hex.
  { apply existsb_exists. exists bp. auto. }
  destruct (scan_breakpoints_covered _ _ Hex) as [bp' [Hin' [Hc' Hs]]].
  assert (bp' = bp) as ->.
  { revert Hin Hin' Hc Hc'. unfold breakpoints. intros Hin Hin' Hc Hc'.
    repeat (destruct Hin as [<- | Hin]; [
      repeat (destruct Hin' as [<- | Hin']; [
        try reflexivity;
        unfold covers in Hc, Hc'; tests_to_props; lra |]);
      destruct Hin' |]).
    destruct Hin. }
  unfold calculate_aqi_from_pm25.
  assert (Num.ltb c 0 = false) as ->; [| exact Hs].
  apply ltb_false.
  revert Hin Hc. unfold breakpoints. intros Hin Hc.
  repeat (destruct Hin as [<- | Hin]; [
    unfold covers in Hc; tests_to_props; lra |]).
  destruct Hin.
Qed.



End ConverterClaims.


(** ** The aggregator: standard deviation *)

Section StdFacts.

Import Stats.

Lemma Qsquare_nonneg (a : Q) : 0 <= a * a.
Proof.
  destruct (Qlt_le_dec a 0) as [Hneg | Hpos].
  - assert (a * a == (- a) * (- a)) as -> by ring.
    apply Qmult_le_0_compat; lra.
  - now apply Qmult_le_0_compat.
Qed.

Lemma sq_dev_nonneg (m : Q) (l : list Q) : 0 <= sq_dev m l.
Proof.
  induction l as [| x rest IH]; simpl; [lra |].
  pose proof (Qsquare_nonneg (x - m)). lra.
Qed.

Lemma sqrt_round2_comp (v w : Q) : v == w -> sqrt_round2 v = sqrt_round2 w.
Proof.
  intros Hvw. unfold sqrt_round2.
  assert (v * 40000 == w * 40000) as H by (rewrite Hvw; reflexivity).
  now rewrite (Qfloor_comp _ _ H).
Qed.

Lemma sqrt_rounded_to_2_comp (v w r : Q) :
  v == w -> sqrt_rounded_to_2 v r -> sqrt_rounded_to_2 w r.
Proof.
  intros Hvw [k [Hk [Hr [Hup Hlo]]]].
  exists k. split; [| split; [| split]]; try assumption.
  - rewrite <- Hvw. exact Hup.
  - destruct Hlo as [-> | Hlo]; [now left | right]. rewrite <- Hvw. exact Hlo.
Qed.

(** The integer computation of [sqrt_round2] does find the hundredth
    nearest to the square root. *)
Lemma sqrt_round2_correct (v : Q) :
  0 <= v -> sqrt_rounded_to_2 v (sqrt_round2 v).
Proof.
  intros Hv. unfold sqrt_round2.
  set (y := Qfloor (v * 40000)).
  assert (0 <= y)%Z as Hy.
  { unfold y. rewrite <- (Qfloor_Z 0). apply Qfloor_resp_le.
    change (inject_Z 0) with 0. nra. }
  pose proof (Z.sqrt_spec y Hy) as [Hs1 Hs2].
  pose proof (Z.sqrt_nonneg y) as Hs0.
  set (s := Z.sqrt y) in *.
  set (k := ((s + 1) / 2)%Z).
  assert (2 * k <= s + 1 < 2 * k + 2)%Z as Hk.
  { unfold k. pose proof (Z.div_mod (s + 1) 2 ltac:(lia)) as Hdm.
    pose proof (Z.mod_pos_bound (s + 1) 2 ltac:(lia)). lia. }
  pose proof (Qfloor_le (v * 40000)) as Hfl.
  pose proof (Qlt_floor (v * 40000)) as Hfu.
  fold y in Hfl, Hfu.
  exists k. split; [| split; [| split]].
  - lia.
  - reflexivity.
  - apply Qlt_le_trans with (y := inject_Z (y + 1)); [exact Hfu |].
    rewrite <- Zle_Qle. nia.
  - destruct (Z.eq_dec k 0) as [Hk0 | Hk0]; [now left | right].
    apply Qle_trans with (y := inject_Z y); [| exact Hfl].
    rewrite <- Zle_Qle. nia.
Qed.

Lemma count_pred (l : list Q) :
  (1 <= List.length l)%nat ->
  inject_Z (Z.of_nat (List.length l - 1)) == inject_Z (Z.of_nat (List.length l)) - 1.
Proof.
  intros Hn. rewrite Nat2Z.inj_sub by exact Hn.
  unfold Z.sub. rewrite inject_Z_plus, inject_Z_opp.
  change (inject_Z (Z.of_nat 1)) with 1. lra.
Qed.

Lemma sample_variance_nonneg (l : list Q) :
  (2 <= List.length l)%nat -> 0 <= sample_variance l.
Proof.
  intros Hn. unfold sample_variance.
  assert (0 < inject_Z (Z.of_nat (List.length l)) - 1) as Hpos.
  { assert (inject_Z 2 <= inject_Z (Z.of_nat (List.length l))) as H2
      by (rewrite <- Zle_Qle; lia).
    change (inject_Z 2) with 2 in H2. lra. }
  apply Qle_shift_div_l; [exact Hpos |].
  pose proof (sq_dev_nonneg (mean l) l). lra.
Qed.




End StdFacts.

(** ** The aggregator: trend *)

Section TrendFacts.

Import Stats.
Local Open Scope string_scope.

Lemma count_cons (v : Q) (l : list Q) : count (v :: l) == 1 + count l.
Proof.
  unfold count. cbn [List.length]. rewrite Nat2Z.inj_succ.
  unfold Z.succ. rewrite inject_Z_plus. change (inject_Z 1) with 1. lra.
Qed.

Lemma line_sq_nonneg (x : list Q) (a b : Q) : 0 <= line_sq x a b.
Proof.
  induction x as [| xi x' IH]; simpl; [lra |].
  pose proof (Qsquare_nonneg (a * xi + b)). lra.
Qed.

Lemma line_sq_expand (x : list Q) (a b : Q) :
  line_sq x a b == a * a * dot x x + 2 * a * b * sum x + b * b * count x.
Proof.
  induction x as [| xi x' IH].
  - unfold count. simpl. ring.
  - cbn [line_sq dot sum]. rewrite IH, count_cons. ring.
Qed.

Lemma sse_nonneg (x y : list Q) (a b : Q) : 0 <= sse x y a b.
Proof.
  revert y. induction x as [| xi x' IH]; intros [| yi y']; simpl; try lra.
  pose proof (Qsquare_nonneg (yi - (a * xi + b))). specialize (IH y'). lra.
Qed.

Lemma sse_expand (x y : list Q) (a b : Q) :
  List.length x = List.length y ->
  sse x y a b ==
    dot y y - 2 * a * dot x y - 2 * b * sum y
    + a * a * dot x x + 2 * a * b * sum x + b * b * count x.
Proof.
  revert y. induction x as [| xi x' IH]; intros [| yi y'] Hlen;
    try discriminate Hlen.
  - unfold count. simpl. ring.
  - cbn [sse dot sum]. rewrite IH by (simpl in Hlen; congruence).
    rewrite count_cons. ring.
Qed.

(** The line of [polyfit1] against any other line: the residuals differ by
    the squares of the difference of the two lines. *)
Lemma sse_polyfit1 (x y : list Q) (a b : Q) :
  List.length x = List.length y ->
  ~ count x == 0 ->
  ~ count x * dot x x - sum x * sum x == 0 ->
  sse x y a b - sse x y (fst (polyfit1 x y)) (snd (polyfit1 x y))
  == line_sq x (a - fst (polyfit1 x y)) (b - snd (polyfit1 x y)).
Proof.
  intros Hlen Hn Hd.
  rewrite !sse_expand by exact Hlen. rewrite line_sq_expand.
  unfold polyfit1. cbn [fst snd]. field. split; assumption.
Qed.

(** Closed forms of the sums over the indices [k, k+1, ..., k+n-1]. *)
Lemma sum_indices (k n : nat) :
  sum (map (fun i => inject_Z (Z.of_nat i)) (seq k n))
  == inject_Z (Z.of_nat n) * inject_Z (Z.of_nat k)
     + inject_Z (Z.of_nat n) * (inject_Z (Z.of_nat n) - 1) / 2.
Proof.
  revert k. induction n as [| n IH]; intros k.
  - simpl. field.
  - cbn [seq map sum]. rewrite IH. rewrite !Nat2Z.inj_succ.
    unfold Z.succ. rewrite !inject_Z_plus. change (inject_Z 1) with 1. field.
Qed.

Lemma dot_indices (k n : nat) :
  let N := inject_Z (Z.of_nat n) in
  let K := inject_Z (Z.of_nat k) in
  dot (map (fun i => inject_Z (Z.of_nat i)) (seq k n))
      (map (fun i => inject_Z (Z.of_nat i)) (seq k n))
  == N * K * K + K * N * (N - 1) + (N - 1) * N * (2 * N - 1) / 6.
Proof.
  revert k. induction n as [| n IH]; intros k; cbv zeta.
  - simpl. field.
  - cbn [seq map dot]. cbv zeta in IH. rewrite IH. rewrite !Nat2Z.inj_succ.
    unfold Z.succ. rewrite !inject_Z_plus. change (inject_Z 1) with 1. field.
Qed.

Lemma length_range (n : nat) : List.length (range n) = n.
Proof. unfold range. now rewrite length_map, length_seq. Qed.

(** With at least two readings the normal equations over [range n] are not
    degenerate. *)
Lemma range_determinant (n : nat) :
  (2 <= n)%nat ->
  0 < count (range n) /\
  0 < count (range n) * dot (range n) (range n) - sum (range n) * sum (range n).
Proof.
  intros Hn. unfold count. rewrite length_range. unfold range.
  pose proof (dot_indices 0 n) as Hdot. cbv zeta in Hdot.
  rewrite Hdot, (sum_indices 0 n). clear Hdot.
  change (inject_Z (Z.of_nat 0)) with 0.
  assert (2 <= inject_Z (Z.of_nat n)) as HN.
  { change 2 with (inject_Z 2). rewrite <- Zle_Qle. lia. }
  set (N := inject_Z (Z.of_nat n)) in *.
  split; [lra |].
  assert (N * (N * 0 * 0 + 0 * N * (N - 1) + (N - 1) * N * (2 * N - 1) / 6)
          - (N * 0 + N * (N - 1) / 2) * (N * 0 + N * (N - 1) / 2)
          == (N * N) * ((N - 1) * (N + 1)) / 12) as -> by field.
  apply Qlt_shift_div_l; [lra |].
  assert (0 < N * N) by (apply Qmult_lt_0_compat; lra).
  assert (0 < (N - 1) * (N + 1)) by (apply Qmult_lt_0_compat; lra).
  assert (0 < (N * N) * ((N - 1) * (N + 1))) by (now apply Qmult_lt_0_compat).
  lra.
Qed.

(** The line of [polyfit1] over the reading indices is a least-squares
    line. *)
Lemma polyfit1_least_squares (aqi : list Q) :
  (2 <= List.length aqi)%nat ->
  least_squares aqi (fst (polyfit1 (range (List.length aqi)) aqi))
                    (snd (polyfit1 (range (List.length aqi)) aqi)).
Proof.
  intros Hn a' b'.
  destruct (range_determinant _ Hn) as [Hc Hd].
  pose proof (sse_polyfit1 (range (List.length aqi)) aqi a' b'
                (length_range _) ltac:(lra) ltac:(lra)) as Hdiff.
  pose proof (line_sq_nonneg (range (List.length aqi))
                (a' - fst (polyfit1 (range (List.length aqi)) aqi))
                (b' - snd (polyfit1 (range (List.length aqi)) aqi))).
  lra.
Qed.

Lemma Qsquare_zero (a : Q) : a * a == 0 -> a == 0.
Proof.
  intros H. destruct (Qmult_integral _ _ H); assumption.
Qed.

(** A line whose squares over the indices 0, 1, ... sum to zero is the
    zero line. *)
Lemma line_sq_zero (n : nat) (a b : Q) :
  (2 <= n)%nat -> line_sq (range n) a b <= 0 -> a == 0 /\ b == 0.
Proof.
  intros Hn Hz.
  destruct n as [| [| n]]; try lia.
  unfold range in Hz. cbn [seq map line_sq] in Hz.
  change (inject_Z (Z.of_nat 0)) with 0 in Hz.
  change (inject_Z (Z.of_nat 1)) with 1 in Hz.
  pose proof (Qsquare_nonneg (a * 0 + b)) as H0.
  pose proof (Qsquare_nonneg (a * 1 + b)) as H1.
  pose proof (line_sq_nonneg
    (map (fun i => inject_Z (Z.of_nat i)) (seq 2 n)) a b) as Hrest.
  assert ((a * 0 + b) * (a * 0 + b) == 0) as Hb by lra.
  assert ((a * 1 + b) * (a * 1 + b) == 0) as Ha by lra.
  apply Qsquare_zero in Hb, Ha. split; lra.
Qed.

(** The least-squares slope is unique: every least-squares line has the
    slope that [polyfit1] returns. *)
Lemma least_squares_slope_unique (aqi : list Q) (a b : Q) :
  (2 <= List.length aqi)%nat ->
  least_squares aqi a b ->
  a == fst (polyfit1 (range (List.length aqi)) aqi).
Proof.
  intros Hn Hls.
  destruct (range_determinant _ Hn) as [Hc Hd].
  pose proof (sse_polyfit1 (range (List.length aqi)) aqi a b
                (length_range _) ltac:(lra) ltac:(lra)) as Hdiff.
  specialize (Hls (fst (polyfit1 (range (List.length aqi)) aqi))
                  (snd (polyfit1 (range (List.length aqi)) aqi))).
  destruct (line_sq_zero (List.length aqi)
              (a - fst (polyfit1 (range (List.length aqi)) aqi))
              (b - snd (polyfit1 (range (List.length aqi)) aqi)) Hn)
    as [Ha _]; lra.
Qed.

Lemma trend_thresholds (aqi : list Q) (a : Q) :
  (2 <= List.length aqi)%nat ->
  a == fst (polyfit1 (range (List.length aqi)) aqi) ->
  (trend aqi = "Increasing" <-> 0.5 < a) /\
  (trend aqi = "Decreasing" <-> a < -0.5) /\
  (trend aqi = "Stable" <-> -0.5 <= a /\ a <= 0.5).
Proof.
  intros Hn Ha. unfold trend.
  destruct (Nat.ltb_spec 1 (List.length aqi)) as [_ | Hlt]; [| lia].
  cbv zeta.
  set (slope := fst (polyfit1 (range (List.length aqi)) aqi)) in *.
  destruct (Num.ltb 0.5 slope) eqn:Hup;
    [| destruct (Num.ltb slope (-0.5)) eqn:Hdown];
    tests_to_props;
    (split; [| split]); split; intros H;
    try discriminate H; try reflexivity; try lra.
Qed.



End TrendFacts.

(** ** Ordering rows *)

Section OrderFacts.

Context {A : Type} (leb : A -> A -> bool).

Hypothesis leb_total : forall a b, leb a b = false -> leb b a = true.
Hypothesis leb_trans : forall a b c, leb a b = true -> leb b c = true -> leb a c = true.

Lemma insert_permutation (x : A) (l : list A) :
  Permutation (Order.insert leb x l) (x :: l).
Proof.
  induction l as [| y rest IH]; simpl; [reflexivity |].
  destruct (leb x y); [reflexivity |].
  rewrite IH. apply perm_swap.
Qed.

Lemma sort_permutation (l : list A) : Permutation (Order.sort leb l) l.
Proof.
  induction l as [| x rest IH]; simpl; [reflexivity |].
  rewrite insert_permutation. now constructor.
Qed.

Lemma sort_in (l : list A) (x : A) : In x (Order.sort leb l) <-> In x l.
Proof.
  split; apply Permutation_in;
    [apply sort_permutation | apply Permutation_sym, sort_permutation].
Qed.

Lemma sort_length (l : list A) : List.length (Order.sort leb l) = List.length l.
Proof. apply Permutation_length, sort_permutation. Qed.

Lemma insert_sorted (x : A) (l : list A) :
  StronglySorted (fun a b => leb a b = true) l ->
  StronglySorted (fun a b => leb a b = true) (Order.insert leb x l).
Proof.
  induction 1 as [| y rest Hs IH Hall]; simpl.
  - repeat constructor.
  - destruct (leb x y) eqn:Hxy.
    + constructor; [now constructor |].
      constructor; [exact Hxy |].
      eapply Forall_impl; [| exact Hall].
      intros z Hyz. now apply (leb_trans x y z).
    + constructor; [exact IH |].
      eapply Permutation_Forall;
        [apply Permutation_sym, insert_permutation |].
      constructor; [now apply leb_total | exact Hall].
Qed.

Lemma sort_sorted (l : list A) :
  StronglySorted (fun a b => leb a b = true) (Order.sort leb l).
Proof.
  induction l as [| x rest IH]; simpl; [constructor | now apply insert_sorted].
Qed.

(** Inserting into a list that holds [x] and into the same list without
    [x]: the results differ by [x] alone. *)
Lemma insert_around (a x : A) (pre post : list A) :
  StronglySorted (fun a b => leb a b = true) (pre ++ x :: post) ->
  exists pre' post',
    Order.insert leb a (pre ++ x :: post) = pre' ++ x :: post' /\
    Order.insert leb a (pre ++ post) = pre' ++ post'.
Proof.
  induction pre as [| y pre IH]; simpl; intros Hs.
  - destruct (leb a x) eqn:Hax.
    + exists [a], post. split; [reflexivity |].
      destruct post as [| z post']; [reflexivity |].
      simpl. inversion Hs as [| ? ? _ Hall]; subst.
      inversion Hall as [| ? ? Hxz _]; subst.
      now rewrite (leb_trans a x z Hax Hxz).
    + exists [], (Order.insert leb a post). split; reflexivity.
  - destruct (leb a y) eqn:Hay.
    + exists (a :: y :: pre), post. split; reflexivity.
    + inversion Hs as [| ? ? Hs' _]; subst.
      destruct (IH Hs') as [pre' [post' [H1 H2]]].
      exists (y :: pre'), post'. simpl. now rewrite H1, H2.
Qed.

(** The sort is stable under removal: taking one row out of the input takes
    that row out of the output and moves no other row. *)
Lemma sort_without (l1 l2 : list A) (x : A) :
  exists pre post,
    Order.sort leb (l1 ++ x :: l2) = pre ++ x :: post /\
    Order.sort leb (l1 ++ l2) = pre ++ post.
Proof.
  induction l1 as [| a l1 IH]; simpl.
  - induction (Order.sort leb l2) as [| y rest IHr]; simpl.
    + exists [], []. split; reflexivity.
    + destruct (leb x y).
      * exists [], (y :: rest). split; reflexivity.
      * destruct IHr as [pre [post [H1 H2]]].
        exists (y :: pre), post. simpl. now rewrite H1, H2.
  - destruct IH as [pre [post [H1 H2]]].
    rewrite H1, H2. apply insert_around.
    rewrite <- H1. apply sort_sorted.
Qed.

End OrderFacts.

Lemma StronglySorted_tail {A : Type} (R : A -> A -> Prop) (l1 l2 : list A) :
  StronglySorted R (l1 ++ l2) -> StronglySorted R l2.
Proof.
  induction l1 as [| x rest IH]; simpl; [auto |].
  intros Hs. inversion Hs; subst. auto.
Qed.

Lemma time_leb_total (a b : option Z) :
  Order.time_leb a b = false -> Order.time_leb b a = true.
Proof.
  destruct a, b; simpl; try congruence; intros H.
  apply Z.leb_gt in H. apply Z.leb_le. lia.
Qed.

Lemma time_leb_trans (a b c : option Z) :
  Order.time_leb a b = true -> Order.time_leb b c = true ->
  Order.time_leb a c = true.
Proof.
  destruct a, b, c; simpl; try congruence; intros H1 H2.
  apply Z.leb_le in H1, H2. apply Z.leb_le. lia.
Qed.

(** ** The data availability resolver *)

Section ResolverFacts.

Import Resolver.
Local Open Scope Z_scope.

Lemma filter_length_pos {A : Type} (f : A -> bool) (l : list A) :
  (0 < List.length (filter f l))%nat <-> exists x, In x l /\ f x = true.
Proof.
  split.
  - destruct (filter f l) as [| x rest] eqn:Hf; simpl; [lia |].
    intros _. exists x. apply filter_In. rewrite Hf. now left.
  - intros [x Hx]. apply filter_In in Hx.
    destruct (filter f l); [destruct Hx | simpl; lia].
Qed.

Lemma city_known_count (table : list db_row) (city_name : string) :
  city_known table city_name <->
  (0 < List.length (filter (of_city city_name) table))%nat.
Proof.
  rewrite filter_length_pos. unfold city_known, of_city.
  split; intros [r [Hin Hc]]; exists r; split; try assumption.
  - now apply String.eqb_eq.
  - now apply String.eqb_eq in Hc.
Qed.

Lemma window_has_data_count (table : list db_row) (city_name : string)
    (start_date end_date : Z) :
  window_has_data table city_name start_date end_date <->
  (0 < period_check table city_name start_date end_date)%nat.
Proof.
  unfold period_check. rewrite filter_length_pos.
  unfold window_has_data, of_city, in_period.
  split.
  - intros [r [Hin [Hc [Hlo Hhi]]]]. exists r. split; [exact Hin |].
    apply andb_true_intro. split; [now apply String.eqb_eq |].
    apply andb_true_intro. split; now apply Z.leb_le.
  - intros [r [Hin Hr]].
    apply andb_true_iff in Hr. destruct Hr as [Hc Hp].
    apply andb_true_iff in Hp. destruct Hp as [Hlo Hhi].
    exists r. split; [exact Hin |]. split; [now apply String.eqb_eq in Hc |].
    split; now apply Z.leb_le.
Qed.

Lemma fold_min_le (l : list Z) (x : Z) :
  fold_left Z.min l x <= x /\ Forall (fun y => fold_left Z.min l x <= y) l.
Proof.
  revert x. induction l as [| y rest IH]; intros x; simpl.
  - split; [lia | constructor].
  - destruct (IH (Z.min x y)) as [H1 H2]. split; [lia |].
    constructor; [lia | exact H2].
Qed.

Lemma fold_max_ge (l : list Z) (x : Z) :
  x <= fold_left Z.max l x /\ Forall (fun y => y <= fold_left Z.max l x) l.
Proof.
  revert x. induction l as [| y rest IH]; intros x; simpl.
  - split; [lia | constructor].
  - destruct (IH (Z.max x y)) as [H1 H2]. split; [lia |].
    constructor; [lia | exact H2].
Qed.

Lemma minimum_le (l : list Z) (lo : Z) :
  minimum l = Some lo -> Forall (fun y => lo <= y) l.
Proof.
  destruct l as [| x rest]; simpl; [discriminate |].
  intros [= <-]. destruct (fold_min_le rest x) as [H1 H2].
  now constructor.
Qed.

Lemma maximum_ge (l : list Z) (hi : Z) :
  maximum l = Some hi -> Forall (fun y => y <= hi) l.
Proof.
  destruct l as [| x rest]; simpl; [discriminate |].
  intros [= <-]. destruct (fold_max_ge rest x) as [H1 H2].
  now constructor.
Qed.

(** The city's whole stored range, as a window, selects every reading of
    the city: the query without a window is the query over
    [[earliest_data, latest_data]]. *)
Lemma data_all_is_full_range (table : list db_row) (city_name : string)
    (lo hi : Z) :
  minimum (map row_timestamp (filter (of_city city_name) table)) = Some lo ->
  maximum (map row_timestamp (filter (of_city city_name) table)) = Some hi ->
  data_all table city_name = data_in_period table city_name lo hi.
Proof.
  intros Hlo Hhi. unfold data_all, data_in_period. f_equal.
  apply minimum_le in Hlo. apply maximum_ge in Hhi.
  rewrite Forall_map in Hlo, Hhi. rewrite Forall_forall in Hlo, Hhi.
  apply filter_ext_in. intros r Hin.
  destruct (of_city city_name r) eqn:Hc; [| reflexivity].
  assert (In r (filter (of_city city_name) table)) as Hf
    by (apply filter_In; auto).
  unfold in_period. simpl. symmetry. apply andb_true_intro.
  split; apply Z.leb_le; [now apply Hlo | now apply Hhi].
Qed.

(** The windowed query returns the city's readings of the window, and only
    those. *)
Lemma data_in_period_rows (table : list db_row) (city_name : string)
    (start_date end_date : Z) (r : db_row) :
  In r (data_in_period table city_name start_date end_date) <->
  In r table /\ row_city r = city_name /\
  start_date <= row_timestamp r <= end_date.
Proof.
  unfold data_in_period. rewrite sort_in, filter_In.
  unfold of_city, in_period.
  rewrite !andb_true_iff, String.eqb_eq, !Z.leb_le. tauto.
Qed.

Lemma data_all_rows (table : list db_row) (city_name : string) (r : db_row) :
  In r (data_all table city_name) <-> In r table /\ row_city r = city_name.
Proof.
  unfold data_all. rewrite sort_in, filter_In.
  unfold of_city. now rewrite String.eqb_eq.
Qed.

Lemma minimum_some (l : list Z) :
  l <> [] -> exists lo, minimum l = Some lo.
Proof. destruct l; [congruence | simpl; eauto]. Qed.

Lemma maximum_some (l : list Z) :
  l <> [] -> exists hi, maximum l = Some hi.
Proof. destruct l; [congruence | simpl; eauto]. Qed.

(** What [check_city_and_data_availability] answers, by the two counts. *)
Lemma check_run (table : list db_row) (city_name : string)
    (start_date end_date : Z) (log : list query) :
  let rows := filter (of_city city_name) table in
  let earliest := minimum (map row_timestamp rows) in
  let latest := maximum (map row_timestamp rows) in
  let period_count := period_check table city_name start_date end_date in
  check_city_and_data_availability city_name start_date end_date table log =
  if (List.length rows =? 0)%nat then
    (Ok (3%nat,
         {| message := "City '" ++ city_name ++ "' not found in database";
            records_in_period := None; total_records := None;
            earliest_data := None; latest_data := None |}),
     (log ++ [CityCheck city_name])%list)
  else if (0 <? period_count)%nat then
    (Ok (1%nat,
         {| message := "Data available for " ++ city_name
                       ++ " in requested period";
            records_in_period := Some period_count; total_records := None;
            earliest_data := earliest; latest_data := latest |}),
     ((log ++ [CityCheck city_name])
        ++ [PeriodCheck city_name start_date end_date])%list)
  else
    (Ok (2%nat,
         {| message := "City '" ++ city_name
                       ++ "' exists but no data for requested period";
            records_in_period := None;
            total_records := Some (List.length rows);
            earliest_data := earliest; latest_data := latest |}),
     ((log ++ [CityCheck city_name])
        ++ [PeriodCheck city_name start_date end_date])%list).
Proof.
  cbv zeta.
  unfold check_city_and_data_availability, reraise, bind, execute, ret,
    city_check.
  destruct (List.length (filter (of_city city_name) table) =? 0)%nat;
    [reflexivity |].
  destruct (0 <? period_check table city_name start_date end_date)%nat;
    reflexivity.
Qed.

(** Without dates from the caller the window is the thirty days that end
    now. *)
Lemma fetch_default_window (table : list db_row) (now : Z)
    (city_name : string) (log : list query) :
  fetch_data_from_database now city_name None None table log =
  fetch_data_from_database now city_name
    (Some (now - thirty_days)) (Some now) table log.
Proof. reflexivity. Qed.



End ResolverFacts.

(** ** The normalizer *)

Section NormalizerFacts.

Import Normalizer.
Local Open Scope string_scope.

Variable parse_datetime : string -> option Z.
Variable parse_number : string -> option Q.
Variable now : Z.


Lemma traverse_app {A B : Type} (f : A -> option B) (l1 l2 : list A) :
  traverse f (l1 ++ l2) =
  match traverse f l1, traverse f l2 with
  | Some a, Some b => Some (a ++ b)%list
  | _, _ => None
  end.
Proof.
  induction l1 as [| x rest IH]; simpl.
  - now destruct (traverse f l2).
  - rewrite IH. destruct (f x); [| reflexivity].
    destruct (traverse f rest); [| reflexivity].
    now destruct (traverse f l2).
Qed.

Lemma traverse_related {A B : Type} (f : A -> option B) (R : A -> B -> Prop)
    (l : list A) :
  (forall x, In x l -> exists y, f x = Some y /\ R x y) ->
  exists out, traverse f l = Some out /\ Forall2 R l out.
Proof.
  induction l as [| x rest IH]; intros Hall; simpl.
  - exists []. split; [reflexivity | constructor].
  - destruct (Hall x (or_introl eq_refl)) as [y [Hy HR]].
    destruct IH as [ys [Hys HRs]]; [intros z Hz; apply Hall; now right |].
    exists (y :: ys). rewrite Hy, Hys. split; [reflexivity | now constructor].
Qed.

Lemma traverse_all {A B : Type} (f : A -> option B) (P : B -> Prop)
    (l : list A) (out : list B) :
  traverse f l = Some out ->
  (forall x y, In x l -> f x = Some y -> P y) ->
  Forall P out.
Proof.
  revert out. induction l as [| x rest IH]; simpl; intros out Hout Hall.
  - injection Hout as <-. constructor.
  - destruct (f x) as [y |] eqn:Hy; [| discriminate].
    destruct (traverse f rest) as [ys |]; [| discriminate].
    injection Hout as <-. constructor.
    + apply (Hall x y); auto.
    + apply IH; [reflexivity |]. intros z w Hz. apply Hall. now right.
Qed.

Lemma by_timestamp_total (a b : option Z * raw_record) :
  by_timestamp a b = false -> by_timestamp b a = true.
Proof. apply time_leb_total. Qed.

Lemma by_timestamp_trans (a b c : option Z * raw_record) :
  by_timestamp a b = true -> by_timestamp b c = true -> by_timestamp a c = true.
Proof. apply time_leb_trans. Qed.

(** The time stamp of a row is the one it was sorted by. *)
Lemma normalize_row_timestamp (cols : columns) (ts : option Z)
    (r : raw_record) (n : reading) :
  normalize_row parse_number cols (ts, r) = Some n -> timestamp n = ts.
Proof.
  unfold normalize_row.
  destruct (aqiValue_column cols r) as [v |]; [| discriminate].
  destruct (classify v) as [[aqi [category color]] |]; [| discriminate].
  now intros [= <-].
Qed.

(** A row whose [aqiValue] and [pm25] are numbers or missing raises
    nothing. *)
Lemma normalize_row_total (cols : columns) (ts : option Z) (r : raw_record) :
  numeric_or_missing (r_aqiValue r) = true ->
  numeric_or_missing (r_pm25 r) = true ->
  exists n, normalize_row parse_number cols (ts, r) = Some n.
Proof.
  intros Haqi Hpm.
  assert (exists v, aqiValue_column cols r = Some v /\
                    forall s, v <> JStr s) as [v [Hv Hns]].
  { unfold aqiValue_column. destruct (c_aqiValue cols).
    - destruct (r_aqiValue r) as [[| x | s] |]; try discriminate Haqi;
        simpl; eexists; (split; [reflexivity | discriminate]).
    - destruct (c_pm25 cols);
        [| eexists; (split; [reflexivity | discriminate])].
      destruct (r_pm25 r) as [[| x | s] |]; try discriminate Hpm;
        simpl; eexists; (split; [reflexivity | discriminate]). }
  unfold normalize_row. rewrite Hv.
  destruct v as [| x | s]; [| | now elim (Hns s)]; unfold classify.
  - destruct (Classifier.get_aqi_category_cell None); eauto.
  - destruct (Classifier.get_aqi_category_cell (Some x)); eauto.
Qed.

(** A batch without strings in [aqiValue] and [pm25] is normalized without
    a raise. *)
Lemma process_total (data : list raw_record) :
  Forall (fun r => numeric_or_missing (r_aqiValue r) = true /\
                   numeric_or_missing (r_pm25 r) = true) data ->
  exists out, process_real_time_data parse_datetime parse_number now data = Some out.
Proof.
  intros Hall. unfold process_real_time_data.
  destruct (traverse_related (normalize_row parse_number (columns_of data)) (fun _ _ => True)
              (sort_values parse_datetime now (columns_of data) data))
    as [out [Hout _]]; [| eauto].
  intros [ts r] Hin.
  unfold sort_values in Hin. apply sort_in in Hin. apply in_map_iff in Hin.
  destruct Hin as [r' [[= _ ->] Hin]].
  rewrite Forall_forall in Hall. destruct (Hall r Hin) as [Ha Hp].
  destruct (normalize_row_total (columns_of data) ts r Ha Hp) as [n Hn].
  exists n. auto.
Qed.

(** A record whose time stamp string cannot be parsed is sorted as [NaT]. *)
Lemma bad_timestamp_is_NaT (data : list raw_record) (bad : raw_record)
    (s : string) :
  In bad data ->
  r_timestamp bad = Some (JStr s) -> parse_datetime s = None ->
  timestamp_column parse_datetime now (columns_of data) bad = None.
Proof.
  intros Hin Hts Hparse. unfold timestamp_column.
  assert (c_timestamp (columns_of data) = true) as ->.
  { simpl. unfold has_column. apply existsb_exists.
    exists bad. split; [exact Hin | now rewrite Hts]. }
  rewrite Hts. simpl. exact Hparse.
Qed.

(** The relative form: whatever the rest of the batch normalizes to, the
    batch with the bad record normalizes to the same rows with the row of
    the bad record put in, among the [NaT] rows at the end. *)
Lemma process_with_bad_timestamp (l1 l2 : list raw_record) (bad : raw_record)
    (s : string) (out : list reading) (nb : reading) :
  r_timestamp bad = Some (JStr s) -> parse_datetime s = None ->
  columns_of (l1 ++ l2) = columns_of (l1 ++ bad :: l2) ->
  process_real_time_data parse_datetime parse_number now (l1 ++ l2) = Some out ->
  normalize_row parse_number (columns_of (l1 ++ bad :: l2)) (None, bad)
    = Some nb ->
  exists pre post,
    process_real_time_data parse_datetime parse_number now (l1 ++ bad :: l2)
      = Some (pre ++ nb :: post)%list /\
    out = (pre ++ post)%list /\
    Forall (fun n => timestamp n = None) post.
Proof.
  intros Hts Hparse Hcols Hout Hnb.
  unfold process_real_time_data in *. rewrite Hcols in Hout.
  set (cols := columns_of (l1 ++ bad :: l2)) in *.
  unfold sort_values in *. rewrite map_app in *. cbn [map].
  assert (timestamp_column parse_datetime now cols bad = None) as Hbad.
  { apply (bad_timestamp_is_NaT _ bad s); auto.
    apply in_or_app. right. now left. }
  rewrite Hbad.
  pose proof (sort_sorted by_timestamp by_timestamp_total by_timestamp_trans
    (map (fun r => (timestamp_column parse_datetime now cols r, r)) l1
       ++ (None, bad)
       :: map (fun r => (timestamp_column parse_datetime now cols r, r)) l2))
    as Hsorted.
  destruct (sort_without by_timestamp by_timestamp_total by_timestamp_trans
    (map (fun r => (timestamp_column parse_datetime now cols r, r)) l1)
    (map (fun r => (timestamp_column parse_datetime now cols r, r)) l2)
    (None, bad)) as [pre0 [post0 [Hwith Hwithout]]].
  rewrite Hwith in *. rewrite Hwithout in Hout.
  rewrite traverse_app in Hout. rewrite traverse_app. cbn [traverse].
  rewrite Hnb.
  destruct (traverse (normalize_row parse_number cols) pre0) as [pre |];
    [| discriminate].
  destruct (traverse (normalize_row parse_number cols) post0) as [post |] eqn:Hpost;
    [| discriminate].
  injection Hout as <-.
  exists pre, post. split; [reflexivity |]. split; [reflexivity |].
  apply (traverse_all _ _ _ _ Hpost).
  intros [ts r] n Hin Hn.
  rewrite (normalize_row_timestamp _ _ _ _ Hn).
  apply StronglySorted_tail in Hsorted.
  inversion Hsorted as [| ? ? _ Hafter]; subst.
  rewrite Forall_forall in Hafter. specialize (Hafter _ Hin).
  unfold by_timestamp in Hafter. simpl in Hafter.
  now destruct ts.
Qed.


Lemma no_column_no_key (field : raw_record -> option jval)
    (data : list raw_record) (r : raw_record) :
  has_column field data = false -> In r data -> field r = None.
Proof.
  unfold has_column. intros Hcol Hin.
  destruct (field r) as [v |] eqn:Hf; [| reflexivity].
  assert (existsb (fun r => has_key (field r)) data = true) as Habs.
  { apply existsb_exists. exists r. split; [exact Hin | now rewrite Hf]. }
  congruence.
Qed.


End NormalizerFacts.

Section NormalizerExamples.

Import Normalizer.
Local Open Scope string_scope.





End NormalizerExamples.

(** * Further properties *)

(** ** Charts and health texts against the classifier *)

(** Decides every comparison of the goal from the inequalities at hand. *)
Ltac decide_leb :=
  repeat match goal with
  | |- context [Num.leb ?a ?b] =>
      first [ replace (Num.leb a b) with true
                by (symmetry; apply leb_true; lra)
            | replace (Num.leb a b) with false
                by (symmetry; apply leb_false; lra) ]
  | |- context [Num.ltb ?a ?b] =>
      first [ replace (Num.ltb a b) with true
                by (symmetry; apply ltb_true; lra)
            | replace (Num.ltb a b) with false
                by (symmetry; apply ltb_false; lra) ]
  end.

Section ChartFacts.

Import Classifier Charts.
Local Open Scope string_scope.

(** The position of a value among the ends of the six ranges. *)
Lemma range_position (v : Q) :
  v < 0 \/ (0 <= v /\ v <= 50) \/ (50 < v /\ v < 51) \/
  (51 <= v /\ v <= 100) \/ (100 < v /\ v < 101) \/
  (101 <= v /\ v <= 150) \/ (150 < v /\ v < 151) \/
  (151 <= v /\ v <= 200) \/ (200 < v /\ v < 201) \/
  (201 <= v /\ v <= 300) \/ (300 < v /\ v < 301) \/
  (301 <= v /\ v <= 500) \/ 500 < v.
Proof.
  destruct (Qlt_le_dec v 0); [tauto |].
  destruct (Qlt_le_dec 50 v); [| tauto].
  destruct (Qlt_le_dec v 51); [tauto |].
  destruct (Qlt_le_dec 100 v); [| tauto].
  destruct (Qlt_le_dec v 101); [tauto |].
  destruct (Qlt_le_dec 150 v); [| tauto].
  destruct (Qlt_le_dec v 151); [tauto |].
  destruct (Qlt_le_dec 200 v); [| tauto].
  destruct (Qlt_le_dec v 201); [tauto |].
  destruct (Qlt_le_dec 300 v); [| tauto].
  destruct (Qlt_le_dec v 301); [tauto |].
  destruct (Qlt_le_dec 500 v); [| tauto].
  tauto.
Qed.

(** Splits on the position of [v] and decides the comparisons there. *)
Ltac by_position v :=
  let H := fresh "Hpos" in
  destruct (range_position v) as
    [H | [H | [H | [H | [H | [H | [H | [H | [H | [H | [H | [H | H]]]]]]]]]]]];
  match type of H with _ /\ _ => destruct H | _ => idtac end;
  unfold get_aqi_category, aqi_categories, scan_categories, in_range;
  decide_leb.

(** X1. Whatever the value, missing or not, the pair that
    [get_aqi_category] returns is the name and the colour of one entry of
    the table: the fall-through answer is the last entry's. *)
Theorem get_aqi_category_in_table (cell : option Q) :
  exists min_val max_val,
    In (fst (get_aqi_category_cell cell),
        (min_val, max_val, snd (get_aqi_category_cell cell)))
       aqi_categories.
Proof.
  destruct cell as [v |]; simpl.
  - by_position v; simpl; eexists; eexists; eauto 20.
  - eexists. eexists. unfold aqi_categories. simpl. eauto 20.
Qed.

(** X2. The colour that the pie chart looks up by category name is the
    colour that the classifier returned with that name; the default of the
    lookup is never used for a category that the classifier made. *)
Theorem pie_color_is_category_color (cell : option Q) :
  pie_color (fst (get_aqi_category_cell cell))
  = snd (get_aqi_category_cell cell).
Proof.
  destruct cell as [v |]; simpl; [| reflexivity].
  by_position v; reflexivity.
Qed.

(** A whole number does not lie strictly between two consecutive whole
    numbers. *)
Lemma whole_not_between (z n : Z) :
  inject_Z n < inject_Z z -> inject_Z z < inject_Z (n + 1) -> False.
Proof.
  intros H1 H2. rewrite <- Zlt_Qlt in H1, H2. lia.
Qed.

Lemma range_count_cons (c : option Q) (aqi : list (option Q)) (r : Q * Q) :
  range_count (c :: aqi) r = (range_count [c] r + range_count aqi r)%nat.
Proof.
  destruct r as [min_val max_val]. unfold range_count.
  destruct (Qeq_bool max_val 1000); simpl.
  - now destruct (cell_ge min_val c).
  - now destruct (cell_ge min_val c && cell_le c max_val).
Qed.

Lemma distribution_counts_cons (c : option Q) (aqi : list (option Q)) :
  total (distribution_counts (c :: aqi))
  = (total (distribution_counts [c]) + total (distribution_counts aqi))%nat.
Proof.
  unfold distribution_counts, ranges. cbn [map total fold_right].
  rewrite !(range_count_cons c aqi). lia.
Qed.

(** One reading is counted in one bar at most. *)
Lemma distribution_counts_one (c : option Q) :
  (total (distribution_counts [c]) <= 1)%nat.
Proof.
  destruct c as [v |]; [| simpl; lia].
  unfold distribution_counts, ranges, range_count, cell_ge, cell_le.
  cbn [map total fold_right Qeq_bool Qnum Qden Z.mul Pos.mul Z.eqb Pos.eqb
       Z.compare Pos.compare Pos.compare_cont filter].
  by_position v; simpl; lia.
Qed.

(** A whole, non-negative reading is counted in exactly one bar. *)
Lemma distribution_counts_whole (z : Z) :
  (0 <= z)%Z -> total (distribution_counts [Some (inject_Z z)]) = 1%nat.
Proof.
  intros Hz.
  unfold distribution_counts, ranges, range_count, cell_ge, cell_le.
  cbn [map total fold_right Qeq_bool Qnum Qden Z.mul Pos.mul Z.eqb Pos.eqb
       Z.compare Pos.compare Pos.compare_cont filter].
  assert (0 <= inject_Z z) as Hq
    by (change 0 with (inject_Z 0); now rewrite <- Zle_Qle).
  by_position (inject_Z z); simpl; try reflexivity; try lra;
    exfalso;
    match goal with
    | H1 : ?a < inject_Z z, H2 : inject_Z z < ?b |- _ =>
        apply (whole_not_between z (Qfloor a)); [exact H1 | exact H2]
    end.
Qed.

(** X3. In the pollution level distribution chart no reading is counted in
    two bars, so the six counts add up to the number of readings at most;
    when every reading is a whole number that is not negative, each is
    counted once and the counts add up to the number of readings. *)
Theorem distribution_counts_total (aqi : list (option Q)) :
  (total (distribution_counts aqi) <= List.length aqi)%nat /\
  (Forall (fun c => exists z : Z, (0 <= z)%Z /\ c = Some (inject_Z z)) aqi ->
   total (distribution_counts aqi) = List.length aqi).
Proof.
  split.
  - induction aqi as [| c rest IH]; [simpl; lia |].
    rewrite distribution_counts_cons. pose proof (distribution_counts_one c).
    simpl List.length. lia.
  - induction 1 as [| c rest [z [Hz ->]] _ IH]; [reflexivity |].
    rewrite distribution_counts_cons, distribution_counts_whole by exact Hz.
    simpl List.length. lia.
Qed.

Lemma distribution_counts_total_witness :
  total (distribution_counts [Some 42; Some 180; Some 612])
  = List.length [Some 42; Some 180; Some 612].
Proof.
  apply (distribution_counts_total [Some 42; Some 180; Some 612]).
  repeat constructor.
  - exists 42%Z. split; [lia | reflexivity].
  - exists 180%Z. split; [lia | reflexivity].
  - exists 612%Z. split; [lia | reflexivity].
Defined.

Lemma ltb_inject_Z (a b : Z) : Num.ltb (inject_Z a) (inject_Z b) = (a <? b)%Z.
Proof.
  unfold Num.ltb. fold (Num.leb (inject_Z b) (inject_Z a)).
  rewrite leb_inject_Z. rewrite Z.leb_antisym. now rewrite negb_involutive.
Qed.

Lemma histogram_cons (edges : list Q) (c : option Q)
    (values : list (option Q)) :
  total (histogram edges (c :: values))
  = (total (histogram edges [c]) + total (histogram edges values))%nat.
Proof.
  induction edges as [| lo tail IH]; [reflexivity |].
  destruct tail as [| hi rest]; [reflexivity |].
  change (histogram (lo :: hi :: rest)) with
    (fun values : list (option Q) =>
       List.length
         (filter (fun c => cell_ge lo c
                           && match rest with
                              | [] => cell_le c hi
                              | _ :: _ => cell_lt c hi
                              end) values)
       :: histogram (hi :: rest) values).
  cbv beta.
  assert (forall (n : nat) (l : list nat), total (n :: l) = (n + total l)%nat)
    as Htotal by reflexivity.
  rewrite !Htotal, IH.
  cbn [filter].
  destruct (cell_ge lo c
            && match rest with [] => cell_le c hi | _ :: _ => cell_lt c hi end);
    cbn [List.length]; lia.
Qed.

Lemma histogram_one (c : option Q) :
  total (histogram bins [c])
  = List.length (filter (fun c => cell_ge 0 c && cell_le c 500) [c]).
Proof.
  destruct c as [v |]; [| reflexivity].
  unfold bins, histogram, cell_ge, cell_le, cell_lt, Num.ltb, Num.leb.
  cbn [filter total fold_right].
  destruct (Qle_bool 0 v) eqn:H0; destruct (Qle_bool 50 v) eqn:H50;
  destruct (Qle_bool 100 v) eqn:H100; destruct (Qle_bool 150 v) eqn:H150;
  destruct (Qle_bool 200 v) eqn:H200; destruct (Qle_bool 300 v) eqn:H300;
  destruct (Qle_bool v 500) eqn:H500;
    cbn; try reflexivity; exfalso;
    repeat match goal with
    | H : Qle_bool _ _ = true |- _ => apply Qle_bool_iff in H
    | H : Qle_bool ?a ?b = false |- _ => apply (leb_false a b) in H
    end; lra.
Qed.

(** X4. The histogram counts exactly the readings from 0 to 500: a reading
    above 500 (which the classifier calls 'Hazardous'), a negative one and a
    missing one are in no bar. *)
Theorem histogram_total (values : list (option Q)) :
  total (histogram bins values)
  = List.length (filter (fun c => cell_ge 0 c && cell_le c 500) values).
Proof.
  induction values as [| c rest IH]; [reflexivity |].
  rewrite histogram_cons, histogram_one, IH.
  cbn [filter]. destruct (cell_ge 0 c && cell_le c 500); reflexivity.
Qed.

(** X5. The bar of the histogram in which a whole reading from 0 to 500 is
    counted has the colour of the reading's category, except at the inner
    bin edges 50, 100, 150, 200 and 300: a reading on such an edge is
    counted in the bar of the next category (a bin excludes its right
    edge, a category range includes it). *)
Theorem histogram_bar_against_category (z : Z) :
  (0 <= z <= 500)%Z ->
  filled_bar_colors [Some (inject_Z z)]
  = [snd (get_aqi_category
            (inject_Z (if existsb (Z.eqb z) [50; 100; 150; 200; 300]%Z
                       then z + 1 else z)))].
Proof.
  intros Hz.
  unfold filled_bar_colors, colors, bins, histogram, cell_ge, cell_le, cell_lt.
  unfold get_aqi_category, aqi_categories, scan_categories, in_range.
  cbn [existsb].
  change 0 with (inject_Z 0); change 50 with (inject_Z 50);
  change 51 with (inject_Z 51); change 100 with (inject_Z 100);
  change 101 with (inject_Z 101); change 150 with (inject_Z 150);
  change 151 with (inject_Z 151); change 200 with (inject_Z 200);
  change 201 with (inject_Z 201); change 300 with (inject_Z 300);
  change 301 with (inject_Z 301); change 500 with (inject_Z 500).
  cbn [filter].
  rewrite !leb_inject_Z, !ltb_inject_Z.
  destruct (Z.eqb_spec z 50) as [-> | N50]; [reflexivity |].
  destruct (Z.eqb_spec z 100) as [-> | N100]; [reflexivity |].
  destruct (Z.eqb_spec z 150) as [-> | N150]; [reflexivity |].
  destruct (Z.eqb_spec z 200) as [-> | N200]; [reflexivity |].
  destruct (Z.eqb_spec z 300) as [-> | N300]; [reflexivity |].
  cbn [orb].
  repeat match goal with
  | |- context [(?a <=? ?b)%Z] => destruct (Z.leb_spec a b); try lia
  | |- context [(?a <? ?b)%Z] => destruct (Z.ltb_spec a b); try lia
  end; reflexivity.
Qed.

Lemma histogram_bar_against_category_witness :
  filled_bar_colors [Some 50] = ["#ffff00"%string] /\
  get_aqi_category 50 = ("Good"%string, "#00ff88"%string).
Proof.
  split; [| reflexivity].
  apply (histogram_bar_against_category 50). lia.
Defined.

(** X6. Whenever the classifier finds a range for the average and the
    average is 200 at most, the health text of the report is the one whose
    heading names that category. *)
Theorem health_text_names_category (avg_aqi : Q)
    (entry : string * (Q * Q * string)) :
  In entry aqi_categories -> in_range entry avg_aqi = true ->
  avg_aqi <= 200 ->
  heading_category (health_text avg_aqi) = fst entry.
Proof.
  unfold aqi_categories. intros Hin Hr Hle.
  repeat (destruct Hin as [<- | Hin]; [
    unfold in_range in Hr; tests_to_props; unfold health_text;
    decide_leb; try reflexivity; exfalso; lra |]).
  destruct Hin.
Qed.

Lemma health_text_names_category_witness :
  heading_category (health_text 75) = "Moderate"%string.
Proof.
  apply (health_text_names_category 75 ("Moderate", (51, 100, "#ffff00"))).
  - right. left. reflexivity.
  - reflexivity.
  - unfold Qle. simpl. lia.
Defined.

(** X7. For an average that no range contains and that is 150 at most
    (a negative average, or one between two ranges such as 50.5), the key
    statistics of the report name the category 'Hazardous' while the health
    text of the same report is not the one for unhealthy air. *)
Theorem health_text_against_fall_through (avg_aqi : Q) :
  matching avg_aqi = [] -> avg_aqi <= 150 ->
  fst (get_aqi_category avg_aqi) = "Hazardous" /\
  health_text avg_aqi <> UnhealthyAirQuality.
Proof.
  intros Hnone Hle. split.
  - revert Hnone. unfold matching, aqi_categories. cbn [filter].
    by_position avg_aqi; cbn [andb]; try discriminate; reflexivity.
  - unfold health_text.
    destruct (Num.leb avg_aqi 50); [discriminate |].
    destruct (Num.leb avg_aqi 100); [discriminate |].
    assert (Num.leb avg_aqi 150 = true) as -> by (now apply leb_true).
    discriminate.
Qed.

Lemma health_text_against_fall_through_witness :
  fst (get_aqi_category 50.5) = "Hazardous"%string /\
  health_text 50.5 <> UnhealthyAirQuality.
Proof.
  apply (health_text_against_fall_through 50.5).
  - reflexivity.
  - unfold Qle. simpl. lia.
Defined.

End ChartFacts.

(** ** The statistics record *)

Section AggregatorFacts.

Import Aggregator.
Local Open Scope string_scope.

Lemma count_for_bump (c d : string) (counts : list (string * nat)) :
  count_for c (bump d counts)
  = if String.eqb c d then S (count_for c counts) else count_for c counts.
Proof.
  induction counts as [| [name n] rest IH]; simpl.
  - destruct (String.eqb c d); reflexivity.
  - destruct (String.eqb_spec d name) as [-> | Hdn]; simpl.
    + destruct (String.eqb_spec c name); reflexivity.
    + destruct (String.eqb_spec c name) as [-> | Hcn].
      * destruct (String.eqb_spec name d); [congruence | reflexivity].
      * exact IH.
Qed.

Lemma total_bump (d : string) (counts : list (string * nat)) :
  Charts.total (map snd (bump d counts)) = S (Charts.total (map snd counts)).
Proof.
  induction counts as [| [name n] rest IH]; simpl; [reflexivity |].
  destruct (String.eqb d name); simpl; [reflexivity |].
  unfold Charts.total in *. simpl. rewrite IH. lia.
Qed.

Lemma positive_bump (d : string) (counts : list (string * nat)) :
  Forall (fun p => (0 < snd p)%nat) counts ->
  Forall (fun p => (0 < snd p)%nat) (bump d counts).
Proof.
  induction 1 as [| [name n] rest Hn Hrest IH]; simpl.
  - repeat constructor.
  - destruct (String.eqb d name); constructor; simpl in *; auto; lia.
Qed.

Lemma keys_bump (d : string) (counts : list (string * nat)) :
  map fst (bump d counts)
  = if existsb (String.eqb d) (map fst counts)
    then map fst counts else (map fst counts ++ [d])%list.
Proof.
  induction counts as [| [name n] rest IH]; simpl; [reflexivity |].
  destruct (String.eqb d name); simpl; [reflexivity |].
  rewrite IH. now destruct (existsb (String.eqb d) (map fst rest)).
Qed.

Lemma nodup_bump (d : string) (counts : list (string * nat)) :
  NoDup (map fst counts) -> NoDup (map fst (bump d counts)).
Proof.
  intros Hnd. rewrite keys_bump.
  destruct (existsb (String.eqb d) (map fst counts)) eqn:Hex; [exact Hnd |].
  apply NoDup_app; [exact Hnd | repeat constructor; intros [] |].
  intros x Hx [Heq | []]. subst x.
  assert (existsb (String.eqb d) (map fst counts) = true); [| congruence].
  apply existsb_exists. exists d. split; [exact Hx | apply String.eqb_refl].
Qed.

(** What the counting loop keeps true of the dict it builds. *)
Lemma value_counts_from (categories : list string)
    (counts : list (string * nat)) :
  let result :=
    fold_left (fun counts category => bump category counts) categories counts in
  (forall c, count_for c result
             = (count_occ string_dec categories c + count_for c counts)%nat) /\
  Charts.total (map snd result)
  = (List.length categories + Charts.total (map snd counts))%nat /\
  (Forall (fun p => (0 < snd p)%nat) counts ->
   Forall (fun p => (0 < snd p)%nat) result) /\
  (NoDup (map fst counts) -> NoDup (map fst result)).
Proof.
  revert counts. induction categories as [| d rest IH]; intros counts; simpl.
  - repeat split; auto.
  - destruct (IH (bump d counts)) as [Hc [Ht [Hp Hn]]].
    split; [| split; [| split]].
    + intros c. rewrite Hc, count_for_bump.
      destruct (string_dec d c) as [-> | Hdc].
      * rewrite String.eqb_refl. lia.
      * destruct (String.eqb_spec c d); [congruence | reflexivity].
    + rewrite Ht, total_bump. lia.
    + intros Hpos. apply Hp. now apply positive_bump.
    + intros Hnd. apply Hn. now apply nodup_bump.
Qed.

(** X8. The category distribution of the statistics is a dict without
    repeated keys that holds, for every category, the number of rows of the
    frame with that category (none for a category that does not occur: every
    count that is listed is positive); the counts add up to
    [total_records]. *)
Theorem category_distribution_counts (df : list row) (st : statistics) :
  calculate_statistics df = Some st ->
  (forall c, count_for c (category_distribution st)
             = count_occ string_dec (map aqi_category df) c) /\
  Forall (fun p => (0 < snd p)%nat) (category_distribution st) /\
  NoDup (map fst (category_distribution st)) /\
  Charts.total (map snd (category_distribution st))
  = Stats.total_records (aqi_statistics st).
Proof.
  unfold calculate_statistics. destruct df as [| first rest]; [discriminate |].
  cbn [map Stats.calculate_statistics]. intros [= <-].
  cbn [category_distribution aqi_statistics Stats.total_records].
  destruct (value_counts_from (aqi_category first :: map aqi_category rest) [])
    as [Hc [Ht [Hp Hn]]].
  fold (value_counts (aqi_category first :: map aqi_category rest)) in *.
  split; [| split; [| split]].
  - intros c. rewrite Hc. simpl. lia.
  - apply Hp. constructor.
  - apply Hn. constructor.
  - rewrite Ht. simpl. rewrite !length_map. lia.
Qed.

Lemma dropna_in (l : list (option Q)) (v : Q) :
  In v (dropna l) <-> In (Some v) l.
Proof.
  induction l as [| [w |] rest IH]; simpl; [tauto | |].
  - rewrite IH. split; intros [H | H]; auto; left; congruence.
  - rewrite IH. split; [auto | intros [H | H]; [discriminate | exact H]].
Qed.

Lemma dropna_nil (l : list (option Q)) :
  dropna l = [] <-> Forall (fun c => c = None) l.
Proof.
  induction l as [| [w |] rest IH]; simpl.
  - split; auto.
  - split; [discriminate | intros H; inversion H; discriminate].
  - rewrite IH. split; [intros H; now constructor | intros H; now inversion H].
Qed.

Lemma count_positive (l : list Q) : l <> [] -> 0 < Stats.count l.
Proof.
  intros Hne. unfold Stats.count.
  change 0 with (inject_Z 0). rewrite <- Zlt_Qlt.
  destruct l; [congruence | simpl; lia].
Qed.

Lemma sum_bounds (l : list Q) (lo hi : Q) :
  Forall (fun v => lo <= v /\ v <= hi) l ->
  Stats.count l * lo <= Stats.sum l /\ Stats.sum l <= Stats.count l * hi.
Proof.
  induction 1 as [| v rest [Hlo Hhi] _ [IHlo IHhi]].
  - change (Stats.count []) with 0. cbn [Stats.sum]. split; lra.
  - rewrite count_cons. cbn [Stats.sum]. split; lra.
Qed.

(** The mean of a non-empty column lies between any two bounds of its
    values. *)
Lemma mean_bounds (l : list Q) (lo hi : Q) :
  l <> [] -> Forall (fun v => lo <= v /\ v <= hi) l ->
  lo <= Stats.mean l /\ Stats.mean l <= hi.
Proof.
  intros Hne Hall. pose proof (count_positive l Hne) as Hn.
  destruct (sum_bounds l lo hi Hall) as [Hlo Hhi]. unfold Stats.mean. split.
  - apply Qle_shift_div_l; [exact Hn | lra].
  - apply Qle_shift_div_r; [exact Hn | lra].
Qed.

(** X9. The average of a pollutant is missing exactly when every row lacks
    the value; otherwise it is the two-decimal rounding of a number that
    lies between any two bounds of the values that are there: the rows
    without a value do not pull it toward zero. *)
Theorem pollutant_average_skips_missing (p : pollutant) (df : list row) :
  (pollutant_average p df = None <->
   Forall (fun r => concentration r p = None) df) /\
  (forall a, pollutant_average p df = Some a ->
     exists m, a = Num.round2 m /\
       forall lo hi,
         (forall r v, In r df -> concentration r p = Some v ->
                      lo <= v /\ v <= hi) ->
         lo <= m /\ m <= hi).
Proof.
  unfold pollutant_average. split.
  - destruct (dropna (map (fun r => concentration r p) df)) eqn:Hd.
    + split; [intros _ | reflexivity].
      apply dropna_nil in Hd. now rewrite Forall_map in Hd.
    + split; [discriminate |]. intros Hall.
      rewrite <- Forall_map with (f := fun r => concentration r p)
                                  (P := fun c => c = None) in Hall.
      apply dropna_nil in Hall. congruence.
  - intros a.
    destruct (dropna (map (fun r => concentration r p) df)) as [| v rest] eqn:Hd;
      [discriminate |].
    intros [= <-]. exists (Stats.mean (v :: rest)). split; [reflexivity |].
    intros lo hi Hbounds. apply mean_bounds; [discriminate |].
    rewrite <- Hd. apply Forall_forall. intros w Hw.
    apply dropna_in in Hw. apply in_map_iff in Hw.
    destruct Hw as [r [Hr Hin]]. now apply (Hbounds r).
Qed.

(** The scan of [idxmax], with what it has passed: the rows before the
    current best are smaller, the rows after it that were passed are not
    greater. *)
Lemma idxmax_scan (rest pre passed : list row) (best : row) :
  Forall (fun r => aqi r < aqi best) pre ->
  Forall (fun r => aqi r <= aqi best) passed ->
  exists before after,
    (pre ++ best :: passed ++ rest
     = before ++ idxmax best rest :: after)%list /\
    Forall (fun r => aqi r < aqi (idxmax best rest)) before /\
    Forall (fun r => aqi r <= aqi (idxmax best rest)) after.
Proof.
  revert pre passed best.
  induction rest as [| r rest IH]; intros pre passed best Hpre Hpassed; simpl.
  - exists pre, passed. rewrite app_nil_r. auto.
  - destruct (Num.ltb (aqi best) (aqi r)) eqn:Hlt.
    + apply ltb_true in Hlt.
      destruct (IH (pre ++ best :: passed)%list [] r) as [before [after [He H]]].
      * apply Forall_app. split; [| constructor; [exact Hlt |]].
        -- eapply Forall_impl; [| exact Hpre]. simpl. intros; lra.
        -- eapply Forall_impl; [| exact Hpassed]. simpl. intros; lra.
      * constructor.
      * exists before, after. split; [| exact H].
        rewrite <- He. simpl. rewrite <- app_assoc. reflexivity.
    + apply ltb_false in Hlt.
      destruct (IH pre (passed ++ [r])%list best Hpre) as [before [after [He H]]].
      * apply Forall_app. split; [exact Hpassed | now repeat constructor].
      * exists before, after. split; [| exact H].
        rewrite <- He. rewrite <- app_assoc. reflexivity.
Qed.


Lemma round2_mono (a b : Q) : a <= b -> Num.round2 a <= Num.round2 b.
Proof.
  intros Hab. unfold Num.round2.
  assert (Num.round_half_even (a * 100) <= Num.round_half_even (b * 100))%Z
    as Hr by (apply round_half_even_mono; lra).
  rewrite Zle_Qle in Hr.
  apply Qle_shift_div_l; [lra |].
  assert (inject_Z (Num.round_half_even (a * 100)) / 100 * 100
          == inject_Z (Num.round_half_even (a * 100))) as -> by field.
  exact Hr.
Qed.

Lemma round_half_even_whole (z : Z) (x : Q) :
  x == inject_Z z -> Num.round_half_even x = z.
Proof.
  intros Hx. rewrite (round_half_even_comp _ _ Hx).
  unfold Num.round_half_even. rewrite Qfloor_Z.
  assert (inject_Z z - inject_Z z == 0) as Hd by ring.
  now rewrite (Qcompare_comp _ _ Hd _ _ (Qeq_refl (1 # 2))).
Qed.

Lemma round2_whole (z : Z) (x : Q) : x == inject_Z z -> Num.round2 x == x.
Proof.
  intros Hx. unfold Num.round2.
  rewrite (round_half_even_whole (z * 100)).
  - rewrite inject_Z_mult, Hx. change (inject_Z 100) with 100. field.
  - rewrite inject_Z_mult, Hx. reflexivity.
Qed.

Lemma int_whole (z : Z) (x : Q) : x == inject_Z z -> Num.int x = z.
Proof.
  intros Hx. unfold Num.int.
  rewrite (Qfloor_comp _ _ Hx), (Qceiling_comp _ _ Hx).
  rewrite Qfloor_Z, Qceiling_Z. now destruct (Qle_bool 0 x).
Qed.

Lemma minimum_spec (l : list Q) (x : Q) :
  (Stats.minimum x l = x \/ In (Stats.minimum x l) l) /\
  Stats.minimum x l <= x /\
  Forall (fun v => Stats.minimum x l <= v) l.
Proof.
  revert x. induction l as [| y rest IH]; intros x; simpl.
  - split; [now left | split; [lra | constructor]].
  - destruct (IH (Stats.Qmin x y)) as [Hin [Hle Hall]].
    unfold Stats.Qmin in *. destruct (Num.leb x y) eqn:Hxy; tests_to_props.
    + split; [tauto | split; [exact Hle |]]. constructor; [lra | exact Hall].
    + split; [destruct Hin as [-> | Hin]; tauto |]. split; [lra |].
      constructor; [exact Hle | exact Hall].
Qed.

Lemma maximum_spec (l : list Q) (x : Q) :
  (Stats.maximum x l = x \/ In (Stats.maximum x l) l) /\
  x <= Stats.maximum x l /\
  Forall (fun v => v <= Stats.maximum x l) l.
Proof.
  revert x. induction l as [| y rest IH]; intros x; simpl.
  - split; [now left | split; [lra | constructor]].
  - destruct (IH (Stats.Qmax x y)) as [Hin [Hle Hall]].
    unfold Stats.Qmax in *. destruct (Num.leb x y) eqn:Hxy; tests_to_props.
    + split; [destruct Hin as [-> | Hin]; tauto |]. split; [lra |].
      constructor; [exact Hle | exact Hall].
    + split; [tauto | split; [exact Hle |]]. constructor; [lra | exact Hall].
Qed.

(** X11. When the AQI readings are whole numbers, the three figures of the
    statistics are in order: [min_aqi <= avg_aqi <= max_aqi]. *)
Theorem min_avg_max_in_order (aqi : list Q) (st : Stats.stats) :
  Forall (fun v => exists z : Z, v == inject_Z z) aqi ->
  Stats.calculate_statistics aqi = Some st ->
  inject_Z (Stats.min_aqi st) <= Stats.avg_aqi st /\
  Stats.avg_aqi st <= inject_Z (Stats.max_aqi st).
Proof.
  intros Hwhole. destruct aqi as [| x rest]; [discriminate |].
  cbn [Stats.calculate_statistics]. intros [= <-].
  cbn [Stats.min_aqi Stats.avg_aqi Stats.max_aqi].
  destruct (minimum_spec rest x) as [Hmin_in [Hmin_x Hmin_all]].
  destruct (maximum_spec rest x) as [Hmax_in [Hmax_x Hmax_all]].
  rewrite Forall_forall in Hwhole.
  assert (exists z, Stats.minimum x rest == inject_Z z) as [zmin Hzmin].
  { apply Hwhole. destruct Hmin_in as [-> | Hin]; [now left | now right]. }
  assert (exists z, Stats.maximum x rest == inject_Z z) as [zmax Hzmax].
  { apply Hwhole. destruct Hmax_in as [-> | Hin]; [now left | now right]. }
  rewrite (int_whole zmin _ Hzmin), (int_whole zmax _ Hzmax).
  destruct (mean_bounds (x :: rest) (Stats.minimum x rest)
              (Stats.maximum x rest)) as [Hlo Hhi]; [discriminate | |].
  { constructor; [split; assumption |].
    rewrite Forall_forall in *. intros v Hv. split; auto. }
  split.
  - apply Qle_trans with (y := Num.round2 (Stats.minimum x rest));
      [| now apply round2_mono].
    rewrite (round2_whole zmin _ Hzmin), Hzmin. apply Qle_refl.
  - apply Qle_trans with (y := Num.round2 (Stats.maximum x rest));
      [now apply round2_mono |].
    rewrite (round2_whole zmax _ Hzmax), Hzmax. apply Qle_refl.
Qed.

Lemma min_avg_max_in_order_witness :
  exists st, Stats.calculate_statistics [42; 180; 95] = Some st /\
    inject_Z (Stats.min_aqi st) <= Stats.avg_aqi st /\
    Stats.avg_aqi st <= inject_Z (Stats.max_aqi st).
Proof.
  eexists. split; [reflexivity |].
  apply (min_avg_max_in_order [42; 180; 95]); [| reflexivity].
  repeat constructor.
  - exists 42%Z. reflexivity.
  - exists 180%Z. reflexivity.
  - exists 95%Z. reflexivity.
Defined.

Lemma round2_nonneg (x : Q) : 0 <= x -> 0 <= Num.round2 x.
Proof.
  intros Hx. unfold Num.round2.
  assert (0 <= Num.round_half_even (x * 100))%Z as Hr
    by (apply round_half_even_lower; change (inject_Z 0) with 0; lra).
  rewrite Zle_Qle in Hr. change (inject_Z 0) with 0 in Hr.
  apply Qle_shift_div_l; lra.
Qed.

Lemma earliest_of_sorted (t : Z) (rest : list Z) :
  Forall (fun u => (t <= u)%Z) rest -> earliest t rest = t.
Proof.
  unfold earliest. induction 1 as [| u rest Hu _ IH]; simpl; [reflexivity |].
  now rewrite Z.min_l.
Qed.

Lemma last_default {A : Type} (x : A) (l : list A) (d d' : A) :
  last (x :: l) d = last (x :: l) d'.
Proof.
  revert x. induction l as [| y rest IH]; intros x; [reflexivity |].
  change (last (y :: rest) d = last (y :: rest) d'). apply IH.
Qed.

Lemma latest_of_sorted (t : Z) (rest : list Z) :
  StronglySorted Z.le (t :: rest) -> latest t rest = last rest t.
Proof.
  unfold latest. revert t.
  induction rest as [| u rest IH]; intros t Hs; [reflexivity |].
  inversion Hs as [| ? ? Hs' Hall]; subst.
  inversion Hall as [| ? ? Htu _]; subst.
  cbn [fold_left]. rewrite Z.max_r by exact Htu. rewrite (IH u Hs').
  destruct rest as [| z rest]; [reflexivity |].
  change (last (u :: z :: rest) t) with (last (z :: rest) t).
  apply last_default.
Qed.

Lemma StronglySorted_map {A B : Type} (f : A -> B) (R : B -> B -> Prop)
    (l : list A) :
  StronglySorted (fun a b => R (f a) (f b)) l -> StronglySorted R (map f l).
Proof.
  induction 1 as [| a rest _ IH Hall]; simpl; constructor; [exact IH |].
  now rewrite Forall_map.
Qed.

Lemma last_map_timestamp (rest : list row) (first : row) :
  last (map timestamp rest) (timestamp first) = timestamp (last rest first).
Proof.
  induction rest as [| r rest IH]; [reflexivity |].
  cbn [map]. destruct rest as [| r' rest]; [reflexivity |].
  cbn [map] in *. exact IH.
Qed.


Lemma category_distribution_counts_witness :
  exists st, calculate_statistics sample_frame = Some st /\
    count_for "Unhealthy" (category_distribution st) = 2%nat /\
    count_for "Moderate" (category_distribution st) = 0%nat /\
    Charts.total (map snd (category_distribution st))
    = Stats.total_records (aqi_statistics st).
Proof.
  eexists. split; [reflexivity |].
  destruct (category_distribution_counts sample_frame _ eq_refl)
    as [Hc [_ [_ Ht]]].
  split; [| split; [| exact Ht]].
  - rewrite Hc. reflexivity.
  - rewrite Hc. reflexivity.
Defined.

Lemma pollutant_average_skips_missing_witness :
  exists a m,
    pollutant_average PM25 sample_frame = Some a /\
    a = Num.round2 m /\ 10.1 <= m /\ m <= 150.3.
Proof.
  destruct (pollutant_average_skips_missing PM25 sample_frame) as [_ Hsome].
  destruct (Hsome _ eq_refl) as [m [Ha Hbounds]].
  eexists. exists m. split; [reflexivity |]. split; [exact Ha |].
  apply Hbounds. intros r v Hin Hv.
  simpl in Hin. destruct Hin as [<- | [<- | [<- | []]]]; simpl in Hv;
    try discriminate Hv; injection Hv as <-; split;
    unfold Qle; simpl; lia.
Defined.



End AggregatorFacts.

(** ** The trend and the spread of special series *)

Section SeriesFacts.

Import Stats.
Local Open Scope string_scope.

Lemma ltb_comp (a a' b b' : Q) :
  a == a' -> b == b' -> Num.ltb a b = Num.ltb a' b'.
Proof.
  intros Ha Hb. unfold Num.ltb. now rewrite Ha, Hb.
Qed.

(** The label depends on the slope as a number only. *)
Lemma trend_of_slope (aqi aqi' : list Q) :
  List.length aqi = List.length aqi' ->
  fst (polyfit1 (range (List.length aqi)) aqi)
  == fst (polyfit1 (range (List.length aqi')) aqi') ->
  trend aqi = trend aqi'.
Proof.
  intros Hlen Hslope. unfold trend. rewrite <- Hlen.
  destruct (1 <? List.length aqi)%nat; [| reflexivity]. cbv zeta.
  rewrite <- Hlen in Hslope.
  rewrite (ltb_comp _ _ _ _ (Qeq_refl 0.5) Hslope).
  rewrite (ltb_comp _ _ _ _ Hslope (Qeq_refl (-0.5))).
  reflexivity.
Qed.

Lemma sum_shifted (c : Q) (y : list Q) :
  sum (map (fun v => v + c) y) == sum y + count y * c.
Proof.
  induction y as [| v rest IH].
  - change (count []) with 0. simpl. ring.
  - cbn [map sum]. rewrite IH, count_cons. ring.
Qed.

Lemma dot_shifted (c : Q) (x y : list Q) :
  List.length x = List.length y ->
  dot x (map (fun v => v + c) y) == dot x y + c * sum x.
Proof.
  revert y. induction x as [| xi x IH]; intros [| yi y] Hlen;
    try discriminate Hlen; cbn [map dot sum]; [ring |].
  rewrite IH by (simpl in Hlen; congruence). ring.
Qed.

Lemma count_by_length (x y : list Q) :
  List.length x = List.length y -> count x = count y.
Proof. unfold count. now intros ->. Qed.


Lemma sum_constant (v : Q) (y : list Q) :
  Forall (fun w => w == v) y -> sum y == count y * v.
Proof.
  induction 1 as [| w rest Hw _ IH].
  - change (count []) with 0. simpl. ring.
  - cbn [sum]. rewrite IH, count_cons, Hw. ring.
Qed.

Lemma dot_constant (v : Q) (x y : list Q) :
  List.length x = List.length y ->
  Forall (fun w => w == v) y -> dot x y == v * sum x.
Proof.
  intros Hlen Hall. revert x Hlen.
  induction Hall as [| w rest Hw _ IH]; intros [| xi x] Hlen;
    try discriminate Hlen; cbn [dot sum]; [ring |].
  rewrite IH by (simpl in Hlen; congruence). rewrite Hw. ring.
Qed.

Lemma sq_dev_constant (v m : Q) (y : list Q) :
  m == v -> Forall (fun w => w == v) y -> sq_dev m y == 0.
Proof.
  intros Hm. induction 1 as [| w rest Hw _ IH]; cbn [sq_dev]; [reflexivity |].
  rewrite IH, Hw, Hm. ring.
Qed.



Lemma sum_app (a b : list Q) : sum (a ++ b) == sum a + sum b.
Proof.
  induction a as [| v rest IH]; cbn [app sum]; [ring |]. rewrite IH. ring.
Qed.

Lemma sum_rev (y : list Q) : sum (rev y) == sum y.
Proof.
  induction y as [| v rest IH]; [reflexivity |].
  cbn [rev]. rewrite sum_app, IH. cbn [sum]. ring.
Qed.

Lemma dot_app (x1 x2 y1 y2 : list Q) :
  List.length x1 = List.length y1 ->
  dot (x1 ++ x2) (y1 ++ y2) == dot x1 y1 + dot x2 y2.
Proof.
  revert y1. induction x1 as [| xi x1 IH]; intros [| yi y1] Hlen;
    try discriminate Hlen; cbn [app dot]; [ring |].
  rewrite IH by (simpl in Hlen; congruence). ring.
Qed.

Lemma dot_next_indices (k : nat) (y : list Q) :
  dot (map (fun i => inject_Z (Z.of_nat i)) (seq (S k) (List.length y))) y
  == dot (map (fun i => inject_Z (Z.of_nat i)) (seq k (List.length y))) y
     + sum y.
Proof.
  revert k. induction y as [| v rest IH]; intros k; [reflexivity |].
  cbn [List.length seq map dot sum]. rewrite IH.
  rewrite Nat2Z.inj_succ. unfold Z.succ. rewrite inject_Z_plus.
  change (inject_Z 1) with 1. ring.
Qed.

Lemma range_succ (n : nat) :
  range (S n) = (range n ++ [inject_Z (Z.of_nat n)])%list.
Proof.
  unfold range. rewrite seq_S, map_app. reflexivity.
Qed.

(** The index-weighted sums of a series and of its reversal. *)
Lemma dot_range_rev (y : list Q) :
  dot (range (List.length y)) (rev y) + dot (range (List.length y)) y
  == (count y - 1) * sum y.
Proof.
  induction y as [| v rest IH].
  - change (count []) with 0. simpl. ring.
  - cbn [List.length rev]. rewrite range_succ at 1.
    rewrite dot_app by (now rewrite length_range, length_rev).
    unfold range at 2. cbn [seq map dot].
    rewrite dot_next_indices. fold (range (List.length rest)).
    rewrite count_cons. cbn [sum dot].
    change (inject_Z (Z.of_nat 0)) with 0.
    fold (count rest).
    assert (dot (range (List.length rest)) (rev rest)
            == (count rest - 1) * sum rest
               - dot (range (List.length rest)) rest) as -> by lra.
    ring.
Qed.

(** Reading the series backwards negates the slope. *)
Lemma slope_reversed (y : list Q) :
  fst (polyfit1 (range (List.length y)) (rev y))
  == - fst (polyfit1 (range (List.length y)) y).
Proof.
  unfold polyfit1. cbn [fst].
  pose proof (dot_range_rev y) as Hrev.
  pose proof (sum_indices 0 (List.length y)) as Hsum.
  fold (range (List.length y)) in Hsum. fold (count y) in Hsum.
  change (inject_Z (Z.of_nat 0)) with 0 in Hsum.
  assert (count (range (List.length y)) = count y) as Hc
    by (apply count_by_length, length_range).
  rewrite Hc, sum_rev.
  set (x := range (List.length y)) in *.
  assert (count y * dot x (rev y) - sum x * sum y
          == - (count y * dot x y - sum x * sum y)) as ->.
  { assert (dot x (rev y) == (count y - 1) * sum y - dot x y) as -> by lra.
    rewrite Hsum. field. }
  unfold Qdiv. ring.
Qed.


End SeriesFacts.

(** ** More on the normalizer *)

Section NormalizerMore.

Import Normalizer.
Local Open Scope string_scope.

Variable parse_datetime : string -> option Z.
Variable parse_number : string -> option Q.
Variable now : Z.

Lemma traverse_each {A B : Type} (f : A -> option B) (l : list A)
    (out : list B) :
  traverse f l = Some out -> Forall2 (fun x y => f x = Some y) l out.
Proof.
  revert out. induction l as [| x rest IH]; simpl; intros out Hout.
  - injection Hout as <-. constructor.
  - destruct (f x) as [y |] eqn:Hy; [| discriminate].
    destruct (traverse f rest) as [ys |]; [| discriminate].
    injection Hout as <-. constructor; [exact Hy | now apply IH].
Qed.

Lemma traverse_raises {A B : Type} (f : A -> option B) (l : list A) :
  traverse f l = None <-> exists x, In x l /\ f x = None.
Proof.
  induction l as [| x rest IH]; simpl.
  - split; [discriminate | intros [x [[] _]]].
  - destruct (f x) as [y |] eqn:Hy.
    + destruct (traverse f rest) as [ys |].
      * split; [discriminate |].
        intros [z [[<- | Hz] Hnone]]; [congruence |].
        destruct IH as [_ IH].
        discriminate (IH (ex_intro _ z (conj Hz Hnone))).
      * split; [| reflexivity]. intros _.
        destruct IH as [IH _]. destruct (IH eq_refl) as [z [Hz Hnone]].
        exists z. auto.
    + split; [| reflexivity]. intros _. exists x. auto.
Qed.

Lemma StronglySorted_unmap {A B : Type} (f : A -> B) (R : B -> B -> Prop)
    (l : list A) :
  StronglySorted R (map f l) -> StronglySorted (fun a b => R (f a) (f b)) l.
Proof.
  induction l as [| a rest IH]; simpl; intros Hs; [constructor |].
  inversion Hs as [| ? ? Hs' Hall]; subst.
  constructor; [now apply IH | now rewrite Forall_map in Hall].
Qed.

Lemma timestamps_of_rows (cols : columns)
    (rows : list (option Z * raw_record)) (out : list reading) :
  traverse (normalize_row parse_number cols) rows = Some out ->
  map timestamp out = map fst rows.
Proof.
  intros Hout. apply traverse_each in Hout.
  induction Hout as [| [ts r] n rows out Hn _ IH]; [reflexivity |].
  simpl. rewrite IH. now rewrite (normalize_row_timestamp _ _ _ _ _ Hn).
Qed.

(** X16. When the normalizer does not raise, the frame has one row for each
    input record and its rows are in ascending order of time stamp, the
    rows without a time stamp ([NaT]) last. *)
Theorem process_sorted_by_timestamp (data : list raw_record)
    (out : list reading) :
  process_real_time_data parse_datetime parse_number now data = Some out ->
  List.length out = List.length data /\
  StronglySorted
    (fun a b => Order.time_leb (timestamp a) (timestamp b) = true) out.
Proof.
  unfold process_real_time_data. intros Hout.
  pose proof (timestamps_of_rows _ _ _ Hout) as Hts.
  split.
  - apply (f_equal (@List.length (option Z))) in Hts.
    rewrite !length_map in Hts. rewrite Hts.
    unfold sort_values. now rewrite sort_length, length_map.
  - apply (StronglySorted_unmap timestamp
             (fun a b => Order.time_leb a b = true)).
    rewrite Hts.
    apply (StronglySorted_map fst (fun a b => Order.time_leb a b = true)).
    apply (sort_sorted by_timestamp by_timestamp_total by_timestamp_trans).
Qed.

(** When one row raises: a string where the AQI is taken from. *)
Lemma normalize_row_raises (cols : columns) (ts : option Z) (r : raw_record) :
  normalize_row parse_number cols (ts, r) = None <->
  exists s,
    if c_aqiValue cols then r_aqiValue r = Some (JStr s)
    else c_pm25 cols = true /\ r_pm25 r = Some (JStr s).
Proof.
  unfold normalize_row, aqiValue_column.
  destruct (c_aqiValue cols).
  - destruct (r_aqiValue r) as [[| x | s] |]; cbn [cell classify];
      try (destruct (Classifier.get_aqi_category_cell _));
      try (split; [discriminate | intros [s' H]; discriminate H]).
    split; [eauto | reflexivity].
  - destruct (c_pm25 cols).
    + destruct (r_pm25 r) as [[| x | s] |]; cbn [cell classify];
        try (destruct (Classifier.get_aqi_category_cell _));
        try (split; [discriminate | intros [s' [_ H]]; discriminate H]).
      split; [eauto | reflexivity].
    + cbn [classify]. destruct (Classifier.get_aqi_category_cell _).
      split; [discriminate | intros [s' [H _]]; discriminate H].
Qed.


(** An AQI that the normalizer computes itself is a whole number from 0 to
    500. *)
Lemma derived_row_is_whole (cols : columns) (ts : option Z) (r : raw_record)
    (n : reading) :
  c_aqiValue cols = false ->
  normalize_row parse_number cols (ts, r) = Some n ->
  exists z : Z, (0 <= z <= 500)%Z /\
    aqiValue n = Some (inject_Z z) /\
    (aqi_category n, aqi_color n) = Classifier.get_aqi_category (inject_Z z).
Proof.
  intros Hno. unfold normalize_row, aqiValue_column. rewrite Hno.
  assert (forall z : Z, (0 <= z <= 500)%Z ->
    match classify (JNum (inject_Z z)) with
    | Some (aqi, (category, color)) =>
        Some {| timestamp := ts; city := city_column cols r;
                aqiValue := aqi; aqi_category := category;
                aqi_color := color;
                pm25 := pollutant_column parse_number (c_pm25 cols) (r_pm25 r);
                pm10 := pollutant_column parse_number (c_pm10 cols) (r_pm10 r);
                no2 := pollutant_column parse_number (c_no2 cols) (r_no2 r);
                so2 := pollutant_column parse_number (c_so2 cols) (r_so2 r);
                co := pollutant_column parse_number (c_co cols) (r_co r);
                o3 := pollutant_column parse_number (c_o3 cols) (r_o3 r) |}
    | None => None
    end = Some n ->
    exists z : Z, (0 <= z <= 500)%Z /\
      aqiValue n = Some (inject_Z z) /\
      (aqi_category n, aqi_color n)
      = Classifier.get_aqi_category (inject_Z z)) as Hz.
  { intros z Hz. unfold classify, Classifier.get_aqi_category_cell.
    destruct (Classifier.get_aqi_category (inject_Z z)) as [category color]
      eqn:Hc.
    intros [= <-]. exists z. simpl. rewrite Hc. auto. }
  destruct (c_pm25 cols).
  - destruct (cell (r_pm25 r)) as [| x | s]; [| | discriminate].
    + apply (Hz 50%Z). lia.
    + apply Hz. unfold Converter.calculate_aqi_from_pm25.
      destruct (Num.ltb x 0); [lia |].
      apply scan_breakpoints_range, incl_refl.
  - apply (Hz 50%Z). lia.
Qed.

(** X18. In a batch in which no record has an [aqiValue] field, every row
    of the frame carries a whole AQI from 0 to 500, and its category and
    colour are those of the one table range that contains this AQI: the
    fall-through of the classifier is not taken. *)
Theorem derived_aqi_has_its_range (data : list raw_record)
    (out : list reading) :
  has_column r_aqiValue data = false ->
  process_real_time_data parse_datetime parse_number now data = Some out ->
  Forall (fun n =>
            exists (z : Z) (e : string * (Q * Q * string)),
              (0 <= z <= 500)%Z /\
              aqiValue n = Some (inject_Z z) /\
              Classifier.matching (inject_Z z) = [e] /\
              (aqi_category n, aqi_color n) = (fst e, snd (snd e))) out.
Proof.
  intros Hno Hout. unfold process_real_time_data in Hout.
  apply (traverse_all _ _ _ _ Hout). intros [ts r] n _ Hn.
  destruct (derived_row_is_whole (columns_of data) ts r n Hno Hn)
    as [z [Hz [Ha Hc]]].
  destruct (get_aqi_category_whole z Hz) as [e [He Hcat]].
  exists z, e. rewrite Hc, Hcat. auto.
Qed.

Lemma Forall2_retag {A B C : Type} (tag : B -> A) (key : A -> B)
    (R : A -> C -> Prop) (l : list A) (out : list C) :
  Forall (fun x => x = tag (key x)) l ->
  Forall2 R l out ->
  Forall2 (fun b c => R (tag b) c) (map key l) out.
Proof.
  intros Htag H2. induction H2 as [| x c l out Hxc _ IH]; [constructor |].
  inversion Htag as [| ? ? Hx Hrest]; subst. simpl.
  constructor; [now rewrite <- Hx | now apply IH].
Qed.

(** X19. The frame is a rearrangement of the batch: its rows are, one for
    one, the normalized records of the input, each with the time stamp
    parsed from it; no record is lost, repeated or given the time stamp of
    another.  In a batch in which no record has a [timestamp] field every
    row carries the ingestion time. *)
Theorem process_rearranges_records (data : list raw_record)
    (out : list reading) :
  process_real_time_data parse_datetime parse_number now data = Some out ->
  (exists arranged,
     Permutation arranged data /\
     Forall2 (fun r n =>
                normalize_row parse_number (columns_of data)
                  (timestamp_column parse_datetime now (columns_of data) r, r)
                = Some n) arranged out) /\
  (has_column r_timestamp data = false ->
   Forall (fun n => timestamp n = Some now) out).
Proof.
  intros Hout. unfold process_real_time_data, sort_values in Hout.
  set (cols := columns_of data) in *.
  set (tag := fun r => (timestamp_column parse_datetime now cols r, r)) in *.
  set (sorted := Order.sort by_timestamp (map tag data)) in *.
  assert (Forall (fun x => x = tag (snd x)) sorted) as Htag.
  { apply Forall_forall. intros x Hx. apply sort_in in Hx.
    apply in_map_iff in Hx. destruct Hx as [r [<- _]]. reflexivity. }
  split.
  - exists (map snd sorted). split.
    + apply Permutation_trans with (map snd (map tag data)).
      * apply Permutation_map. apply sort_permutation.
      * rewrite map_map. unfold tag. simpl. now rewrite map_id.
    + apply (Forall2_retag tag snd
               (fun x n => normalize_row parse_number cols x = Some n)).
      * exact Htag.
      * now apply traverse_each.
  - intros Hno. apply (traverse_all _ _ _ _ Hout). intros [ts r] n Hin Hn.
    rewrite Forall_forall in Htag. specialize (Htag _ Hin).
    apply (normalize_row_timestamp _ _ _ _ _) in Hn. rewrite Hn.
    injection Htag as ->. unfold timestamp_column.
    change (c_timestamp cols) with (has_column r_timestamp data).
    now rewrite Hno.
Qed.

End NormalizerMore.

Section NormalizerMoreExamples.

Import Normalizer.
Local Open Scope string_scope.

Lemma process_sorted_by_timestamp_witness :
  exists out, example_run [bad_record; good_record] = Some out /\
    List.length out = 2%nat /\
    StronglySorted
      (fun a b => Order.time_leb (timestamp a) (timestamp b) = true) out.
Proof.
  eexists. split; [reflexivity |].
  apply (process_sorted_by_timestamp example_datetime example_number
           ingestion_time [bad_record; good_record]).
  reflexivity.
Defined.

Lemma derived_aqi_has_its_range_witness :
  exists out, example_run [pm25_only_record] = Some out /\
    Forall (fun n =>
              exists (z : Z) (e : string * (Q * Q * string)),
                (0 <= z <= 500)%Z /\
                aqiValue n = Some (inject_Z z) /\
                Classifier.matching (inject_Z z) = [e] /\
                (aqi_category n, aqi_color n) = (fst e, snd (snd e))) out.
Proof.
  eexists. split; [reflexivity |].
  apply (derived_aqi_has_its_range example_datetime example_number
           ingestion_time [pm25_only_record]); reflexivity.
Defined.

Lemma process_rearranges_records_witness :
  exists out,
    example_run [pm25_only_record; pm25_only_record] = Some out /\
    Forall (fun n => timestamp n = Some ingestion_time) out.
Proof.
  eexists. split; [reflexivity |].
  apply (process_rearranges_records example_datetime example_number
           ingestion_time [pm25_only_record; pm25_only_record]); reflexivity.
Defined.

End NormalizerMoreExamples.

(** ** More on the database path *)

Section ResolverMore.

Import Resolver DatabasePath.
Local Open Scope string_scope.
Local Open Scope Z_scope.

Lemma row_leb_total (a b : db_row) :
  by_timestamp a b = false -> by_timestamp b a = true.
Proof.
  unfold by_timestamp. intros H. apply Z.leb_gt in H. apply Z.leb_le. lia.
Qed.

Lemma row_leb_trans (a b c : db_row) :
  by_timestamp a b = true -> by_timestamp b c = true -> by_timestamp a c = true.
Proof.
  unfold by_timestamp. intros H1 H2. apply Z.leb_le in H1, H2.
  apply Z.leb_le. lia.
Qed.

(** What [fetch_data_from_database] does, by the two counts. *)
Lemma fetch_run (table : list db_row) (now : Z) (city_name : string)
    (start_date end_date : option Z) (log : list query) :
  let e := match end_date with Some e => e | None => now end in
  let s := match start_date with Some s => s | None => e - thirty_days end in
  let rows := filter (of_city city_name) table in
  let earliest := minimum (map row_timestamp rows) in
  let latest := maximum (map row_timestamp rows) in
  let period_count := period_check table city_name s e in
  fetch_data_from_database now city_name start_date end_date table log =
  if (List.length rows =? 0)%nat then
    (Raise (city_not_found city_name), (log ++ [CityCheck city_name])%list)
  else if (0 <? period_count)%nat then
    (Ok (process_database_data (data_in_period table city_name s e), 1%nat,
         {| message := "Data available for " ++ city_name
                       ++ " in requested period";
            records_in_period := Some period_count; total_records := None;
            earliest_data := earliest; latest_data := latest |}),
     (((log ++ [CityCheck city_name]) ++ [PeriodCheck city_name s e])
        ++ [DataInPeriod city_name s e])%list)
  else
    (Ok (process_database_data (data_all table city_name), 2%nat,
         {| message := "City '" ++ city_name
                       ++ "' exists but no data for requested period";
            records_in_period := None;
            total_records := Some (List.length rows);
            earliest_data := earliest; latest_data := latest |}),
     (((log ++ [CityCheck city_name]) ++ [PeriodCheck city_name s e])
        ++ [DataAll city_name])%list).
Proof.
  cbv zeta. unfold fetch_data_from_database, reraise, bind.
  rewrite check_run. cbv zeta.
  set (e := match end_date with Some e => e | None => now end).
  set (s := match start_date with Some s => s | None => e - thirty_days end).
  destruct (Nat.eqb_spec (List.length (filter (of_city city_name) table)) 0)
    as [Hzero | Hpos].
  - reflexivity.
  - destruct (Nat.ltb_spec 0 (period_check table city_name s e)) as [Hin | Hout].
    + unfold execute. cbn -[data_in_period process_database_data].
      destruct (data_in_period table city_name s e) as [| r rest] eqn:Hdata;
        [| reflexivity].
      exfalso. unfold data_in_period in Hdata.
      apply (f_equal (@List.length db_row)) in Hdata.
      rewrite sort_length in Hdata. unfold period_check in Hin.
      simpl in Hdata. lia.
    + unfold execute. cbn -[data_all process_database_data].
      destruct (data_all table city_name) as [| r rest] eqn:Hdata;
        [| reflexivity].
      exfalso. unfold data_all in Hdata.
      apply (f_equal (@List.length db_row)) in Hdata.
      rewrite sort_length in Hdata. simpl in Hdata. lia.
Qed.


Lemma StronglySorted_weaken {A : Type} (R R' : A -> A -> Prop) (l : list A) :
  (forall a b, R a b -> R' a b) -> StronglySorted R l -> StronglySorted R' l.
Proof.
  intros Himp. induction 1 as [| a rest _ IH Hall]; constructor; [exact IH |].
  eapply Forall_impl; [| exact Hall]. apply Himp.
Qed.

Lemma process_database_data_rows (df : list db_row) :
  map f_row (process_database_data df) = Order.sort by_timestamp df.
Proof.
  unfold process_database_data. rewrite map_map. simpl. apply map_id.
Qed.


Lemma process_database_data_length (df : list db_row) :
  List.length (process_database_data df) = List.length df.
Proof.
  unfold process_database_data. now rewrite length_map, sort_length.
Qed.







End ResolverMore.

(** ** The service manager *)

Section ServiceManagerFacts.

Import ServiceManager.
Local Open Scope string_scope.

Lemma prefix_nil (s : string) : String.prefix "" s = true.
Proof. destruct s; reflexivity. Qed.

Lemma prefix_cons (a b : Ascii.ascii) (s t : string) :
  String.prefix (String a s) (String b t) = true <->
  a = b /\ String.prefix s t = true.
Proof.
  simpl. destruct (Ascii.ascii_dec a b) as [-> | Hne].
  - tauto.
  - split; [discriminate | intros [H _]; congruence].
Qed.

Lemma prefix_trans (a b c : string) :
  String.prefix a b = true -> String.prefix b c = true ->
  String.prefix a c = true.
Proof.
  revert b c. induction a as [| x a IH]; intros b c Hab Hbc.
  - apply prefix_nil.
  - destruct b as [| y b]; [discriminate Hab |].
    destruct c as [| z c]; [discriminate Hbc |].
    apply prefix_cons in Hab. apply prefix_cons in Hbc.
    apply prefix_cons. destruct Hab as [-> Hab]. destruct Hbc as [-> Hbc].
    split; [reflexivity | now apply (IH b c)].
Qed.

(** The part before the separator is a prefix of the string. *)
Lemma before_prefix (sep s : string) : String.prefix (before sep s) s = true.
Proof.
  induction s as [| c rest IH].
  - change (before sep "") with (if String.prefix sep "" then "" else "").
    now destruct (String.prefix sep "").
  - change (before sep (String c rest))
      with (if String.prefix sep (String c rest) then ""
            else String c (before sep rest)).
    destruct (String.prefix sep (String c rest)); [reflexivity |].
    apply prefix_cons. auto.
Qed.

(** The separator does not occur in a prefix of a string in which it does
    not occur. *)
Lemma occurs_prefix (sep t s : string) :
  String.prefix t s = true -> occurs sep s = false -> occurs sep t = false.
Proof.
  revert s. induction t as [| c t IH]; intros s Hts Hs.
  - destruct s as [| d s]; [exact Hs |].
    simpl in *. apply orb_false_iff in Hs. destruct Hs as [Hp _].
    destruct sep; [discriminate Hp | reflexivity].
  - destruct s as [| d s]; [discriminate Hts |].
    apply prefix_cons in Hts. destruct Hts as [<- Hts].
    change (occurs sep (String c s))
      with (String.prefix sep (String c s) || occurs sep s) in Hs.
    change (occurs sep (String c t))
      with (String.prefix sep (String c t) || occurs sep t).
    apply orb_false_iff in Hs. destruct Hs as [Hp Ho].
    apply orb_false_iff. split; [| now apply (IH s)].
    destruct (String.prefix sep (String c t)) eqn:Hpt; [| reflexivity].
    rewrite <- Hp. symmetry.
    apply (prefix_trans sep (String c t) (String c s) Hpt).
    apply prefix_cons. auto.
Qed.

(** The separator does not occur in the part before it. *)
Lemma before_no_occurrence (sep s : string) :
  sep <> "" -> occurs sep (before sep s) = false.
Proof.
  intros Hsep. induction s as [| c rest IH].
  - simpl. destruct sep; [congruence | reflexivity].
  - change (before sep (String c rest))
      with (if String.prefix sep (String c rest) then ""
            else String c (before sep rest)).
    destruct (String.prefix sep (String c rest)) eqn:Hp.
    + simpl. destruct sep; [congruence | reflexivity].
    + change (occurs sep (String c (before sep rest)))
        with (String.prefix sep (String c (before sep rest))
              || occurs sep (before sep rest)).
      rewrite IH, orb_false_r.
      destruct (String.prefix sep (String c (before sep rest))) eqn:Hpb;
        [| reflexivity].
      rewrite <- Hp. symmetry.
      apply (prefix_trans sep _ _ Hpb).
      apply prefix_cons. split; [reflexivity | apply before_prefix].
Qed.

(** Without an occurrence nothing is cut. *)
Lemma before_without_occurrence (sep s : string) :
  occurs sep s = false -> before sep s = s.
Proof.
  induction s as [| c rest IH]; intros Ho.
  - change (before sep "") with (if String.prefix sep "" then "" else "").
    now destruct (String.prefix sep "").
  - change (occurs sep (String c rest))
      with (String.prefix sep (String c rest) || occurs sep rest) in Ho.
    apply orb_false_iff in Ho. destruct Ho as [Hp Ho].
    change (before sep (String c rest))
      with (if String.prefix sep (String c rest) then ""
            else String c (before sep rest)).
    rewrite Hp. now rewrite IH.
Qed.

Lemma pkg_name_facts (package : string) :
  String.prefix (pkg_name package) package = true /\
  occurs ">=" (pkg_name package) = false /\
  occurs "==" (pkg_name package) = false /\
  occurs "<" (pkg_name package) = false /\
  pkg_name (pkg_name package) = pkg_name package.
Proof.
  unfold pkg_name.
  set (b1 := before ">=" package).
  set (b2 := before "==" b1).
  set (b3 := before "<" b2).
  assert (String.prefix b3 b2 = true) as H32 by apply before_prefix.
  assert (String.prefix b2 b1 = true) as H21 by apply before_prefix.
  assert (String.prefix b1 package = true) as H10 by apply before_prefix.
  assert (occurs ">=" b1 = false) as Hge
    by (apply before_no_occurrence; discriminate).
  assert (occurs "==" b2 = false) as Heq
    by (apply before_no_occurrence; discriminate).
  assert (occurs "<" b3 = false) as Hlt
    by (apply before_no_occurrence; discriminate).
  assert (occurs ">=" b3 = false) as Hge3.
  { apply (occurs_prefix _ b3 b1); [| exact Hge].
    now apply (prefix_trans b3 b2 b1). }
  assert (occurs "==" b3 = false) as Heq3
    by (now apply (occurs_prefix _ b3 b2)).
  split; [| split; [| split; [| split]]]; try assumption.
  - apply (prefix_trans b3 b1 package); [| exact H10].
    now apply (prefix_trans b3 b2 b1).
  - rewrite (before_without_occurrence ">=" b3 Hge3).
    rewrite (before_without_occurrence "==" b3 Heq3).
    now rewrite (before_without_occurrence "<" b3 Hlt).
Qed.

(** X24. The name that is cut from a requirement is a prefix of the
    requirement in which none of the specifiers '>=', '==' and '<' occurs;
    cutting it again changes nothing, so the second cut that
    [check_package_installed] makes on a name already cut is harmless. *)
Theorem pkg_name_is_cut (package : string) :
  String.prefix (pkg_name package) package = true /\
  occurs ">=" (pkg_name package) = false /\
  occurs "==" (pkg_name package) = false /\
  occurs "<" (pkg_name package) = false /\
  pkg_name (pkg_name package) = pkg_name package.
Proof. exact (pkg_name_facts package). Qed.

Lemma no_touch_in_installs (l : list string) :
  existsb (fun a => match a with Touch => true | _ => false end)
          (map Install l) = false.
Proof. induction l; simpl; auto. Qed.

Lemma installs_of_map (l : list string) (tail : list action) :
  installs (map Install l ++ tail) = (l ++ installs tail)%list.
Proof. induction l as [| p l IH]; simpl; [reflexivity | now rewrite IH]. Qed.

(** The check made in the loop, on a name that is already cut. *)
Lemma check_of_cut_name (env : environment) (package : string) :
  check_package_installed env (pkg_name package)
  = match import_module env (replace_dash (pkg_name package)) with
    | Imported => Some true
    | ImportError => Some false
    | OtherError => None
    end.
Proof.
  unfold check_package_installed.
  destruct (pkg_name_facts package) as [_ [_ [_ [_ ->]]]]. reflexivity.
Qed.

Lemma missing_packages_raises (env : environment) (required : list string) :
  missing_packages env required = None <->
  Exists (import_breaks env) required.
Proof.
  induction required as [| package rest IH]; simpl.
  - split; [discriminate | intros H; inversion H].
  - rewrite check_of_cut_name. split.
    + destruct (import_module env (replace_dash (pkg_name package))) eqn:Hi.
      * destruct (missing_packages env rest); [discriminate |].
        intros _. apply Exists_cons_tl. now apply IH.
      * destruct (missing_packages env rest); [discriminate |].
        intros _. apply Exists_cons_tl. now apply IH.
      * intros _. now apply Exists_cons_hd.
    + intros Hex. inversion Hex as [x l Hb | x l Hb]; subst.
      * unfold import_breaks in Hb. now rewrite Hb.
      * apply IH in Hb. rewrite Hb.
        now destruct (import_module env (replace_dash (pkg_name package))).
Qed.

Lemma missing_packages_returns (env : environment) (required missing : list string) :
  missing_packages env required = Some missing ->
  missing = filter (not_importable env) required.
Proof.
  revert missing.
  induction required as [| package rest IH]; simpl; intros missing.
  - now intros [= <-].
  - rewrite check_of_cut_name. unfold not_importable at 1.
    destruct (import_module env (replace_dash (pkg_name package)));
      [| | discriminate];
      (destruct (missing_packages env rest) as [m |]; [| discriminate]);
      intros [= <-]; now rewrite (IH m eq_refl).
Qed.

(** X25. After [setup_dependencies] the marker file [.setup_complete]
    exists exactly when it returned [True]: a set-up that returns [False]
    or raises never leaves the marker behind, a successful one always
    does. *)
Theorem setup_marker_iff_success (env : environment) :
  setup_complete_after env (snd (setup_dependencies env)) = true <->
  fst (setup_dependencies env) = Some true.
Proof.
  unfold setup_complete_after, setup_dependencies.
  destruct (setup_complete env) eqn:Hm; [now split |].
  destruct (check_python_version (version env)); [| now split].
  cbn [negb orb].
  destruct (missing_packages env (required_packages env)) as [[| p rest] |];
    [now split | | now split].
  destruct (filter _ (p :: rest)) as [| q failed]; cbn [fst snd].
  - rewrite existsb_app. cbn [existsb]. rewrite orb_true_r. now split.
  - cbn [existsb]. rewrite no_touch_in_installs. now split.
Qed.

(** X26. On a fresh installation (no marker, Python 3.7 or later), when
    the set-up does not raise, [pip install] is run for exactly the
    requirements whose module, the name cut once with [-] replaced by [_],
    raises [ImportError], in the order of the list and also after one of
    them failed; the set-up returns [True] exactly when all these
    installations succeed. *)
Theorem setup_installs_what_is_missing (env : environment) (result : bool) :
  setup_complete env = false ->
  check_python_version (version env) = true ->
  fst (setup_dependencies env) = Some result ->
  let missing := filter (not_importable env) (required_packages env) in
  installs (snd (setup_dependencies env)) = missing /\
  (result = true <->
   Forall (fun package => pip_installs env package = true) missing).
Proof.
  intros Hm Hv. cbv zeta. unfold setup_dependencies. rewrite Hm, Hv.
  cbn [negb].
  destruct (missing_packages env (required_packages env)) as [missing |]
    eqn:Hmissing; [| discriminate].
  apply missing_packages_returns in Hmissing. rewrite <- Hmissing.
  destruct missing as [| p rest].
  - intros [= <-]. split; [reflexivity |]. split; [constructor | reflexivity].
  - destruct (filter (fun package => negb (pip_installs env package))
                     (p :: rest)) as [| q failed] eqn:Hfailed;
      cbn [fst snd]; intros [= <-].
    + split.
      * change (installs ((UpgradePip :: map Install (p :: rest)) ++ [Touch]))
          with (installs (map Install (p :: rest) ++ [Touch])).
        rewrite installs_of_map. cbn [installs]. now rewrite app_nil_r.
      * split; [intros _ | reflexivity].
        apply Forall_forall. intros x Hx.
        destruct (pip_installs env x) eqn:Hp; [reflexivity |].
        assert (In x (filter (fun package => negb (pip_installs env package))
                             (p :: rest))) as Habs
          by (apply filter_In; split; [exact Hx | now rewrite Hp]).
        rewrite Hfailed in Habs. destruct Habs.
    + split.
      * change (installs (UpgradePip :: map Install (p :: rest)))
          with (installs (map Install (p :: rest))).
        rewrite <- (app_nil_r (map Install (p :: rest))).
        rewrite installs_of_map. cbn [installs]. now rewrite app_nil_r.
      * split; [discriminate |]. intros Hall.
        assert (In q (filter (fun package => negb (pip_installs env package))
                             (p :: rest))) as Hq
          by (rewrite Hfailed; now left).
        apply filter_In in Hq. destruct Hq as [Hin Hneg].
        rewrite Forall_forall in Hall. rewrite (Hall q Hin) in Hneg.
        discriminate.
Qed.

(** X27. [setup_dependencies] raises exactly when there is no marker, the
    version of Python is accepted, and the import of the module of some
    requirement ends in an exception other than [ImportError]; it has then
    installed nothing and left no marker, whatever the other requirements
    are. *)
Theorem setup_raises_iff_import_breaks (env : environment) :
  (fst (setup_dependencies env) = None <->
   setup_complete env = false /\
   check_python_version (version env) = true /\
   Exists (import_breaks env) (required_packages env)) /\
  (fst (setup_dependencies env) = None -> snd (setup_dependencies env) = []).
Proof.
  unfold setup_dependencies.
  destruct (setup_complete env);
    [split; [split; [discriminate | intros [H _]; discriminate]
            | discriminate] |].
  destruct (check_python_version (version env)); cbn [negb];
    [| split; [split; [discriminate | intros [_ [H _]]; discriminate]
              | discriminate]].
  pose proof (missing_packages_raises env (required_packages env)) as Hraise.
  destruct (missing_packages env (required_packages env)) as [[| p rest] |].
  - split; [split; [discriminate |] | discriminate].
    intros [_ [_ Hex]]. apply Hraise in Hex. discriminate.
  - destruct (filter _ (p :: rest));
      (split; [split; [discriminate |] | discriminate]);
      intros [_ [_ Hex]]; apply Hraise in Hex; discriminate.
  - split; [| reflexivity]. split; [| reflexivity].
    intros _. split; [reflexivity |]. split; [reflexivity |].
    now apply Hraise.
Qed.

Lemma setup_installs_what_is_missing_witness :
  installs (snd (setup_dependencies sample_environment))
  = [ "matplotlib>=3.5.0"; "seaborn>=0.11.0"; "reportlab>=3.6.0";
      "PyMySQL>=1.0.0"; "SQLAlchemy>=1.4.0" ] /\
  (true = true <->
   Forall (fun package => pip_installs sample_environment package = true)
          (filter (not_importable sample_environment)
                  (required_packages sample_environment))).
Proof.
  destruct (setup_installs_what_is_missing sample_environment true
              eq_refl eq_refl eq_refl) as [Hinstalls Hok].
  split; [rewrite Hinstalls; reflexivity | exact Hok].
Defined.

Lemma setup_raises_iff_import_breaks_witness :
  fst (setup_dependencies broken_environment) = None /\
  snd (setup_dependencies broken_environment) = [].
Proof.
  destruct (setup_raises_iff_import_breaks broken_environment)
    as [[_ Hraise] Hnothing].
  assert (fst (setup_dependencies broken_environment) = None) as Hnone.
  { apply Hraise. split; [reflexivity |]. split; [reflexivity |].
    apply Exists_cons_tl. apply Exists_cons_hd. reflexivity. }
  split; [exact Hnone | exact (Hnothing Hnone)].
Defined.

End ServiceManagerFacts.

(** ** The converter on sensor values, and the pipeline end to end *)

Section ConverterMore.

Import Converter.

(** A concentration given in tenths is covered by a breakpoint or lies
    beyond the last one: the gaps of the table hold no tenth. *)
Lemma tenth_is_covered (k : Z) :
  (0 <= k)%Z ->
  existsb (fun bp => covers bp (inject_Z k / 10)) breakpoints = true \/
  500.4 < inject_Z k / 10.
Proof.
  intros Hk.
  assert (inject_Z k / 10 * 10 == inject_Z k) as Hq by field.
  set (q := inject_Z k / 10) in *.
  assert ((k <= 120) \/ (121 <= k <= 354) \/ (355 <= k <= 554) \/
          (555 <= k <= 1504) \/ (1505 <= k <= 2504) \/
          (2505 <= k <= 3504) \/ (3505 <= k <= 5004) \/ 5005 <= k)%Z
    as Hcases by lia.
  assert (forall a b : Z, (a <= k <= b)%Z ->
            inject_Z a <= q * 10 /\ q * 10 <= inject_Z b) as Hin.
  { intros a b [Ha Hb]. rewrite Hq. split; now rewrite <- Zle_Qle. }
  unfold breakpoints. cbn [existsb]. unfold covers.
  destruct Hcases as [H | [H | [H | [H | [H | [H | [H | H]]]]]]].
  - left. destruct (Hin 0%Z 120%Z ltac:(lia)) as [Ha Hb].
    change (inject_Z 0) with 0 in Ha. change (inject_Z 120) with 120 in Hb.
    decide_leb. reflexivity.
  - left. destruct (Hin _ _ H) as [Ha Hb].
    change (inject_Z 121) with 121 in Ha. change (inject_Z 354) with 354 in Hb.
    decide_leb. reflexivity.
  - left. destruct (Hin _ _ H) as [Ha Hb].
    change (inject_Z 355) with 355 in Ha. change (inject_Z 554) with 554 in Hb.
    decide_leb. reflexivity.
  - left. destruct (Hin _ _ H) as [Ha Hb].
    change (inject_Z 555) with 555 in Ha. change (inject_Z 1504) with 1504 in Hb.
    decide_leb. reflexivity.
  - left. destruct (Hin _ _ H) as [Ha Hb].
    change (inject_Z 1505) with 1505 in Ha.
    change (inject_Z 2504) with 2504 in Hb.
    decide_leb. reflexivity.
  - left. destruct (Hin _ _ H) as [Ha Hb].
    change (inject_Z 2505) with 2505 in Ha.
    change (inject_Z 3504) with 3504 in Hb.
    decide_leb. reflexivity.
  - left. destruct (Hin _ _ H) as [Ha Hb].
    change (inject_Z 3505) with 3505 in Ha.
    change (inject_Z 5004) with 5004 in Hb.
    decide_leb. reflexivity.
  - right. assert (inject_Z 5005 <= q * 10) as Ha
      by (rewrite Hq; now rewrite <- Zle_Qle).
    change (inject_Z 5005) with 5005 in Ha. lra.
Qed.

(** X28. On concentrations given to one decimal, as the breakpoints are,
    [calculate_aqi_from_pm25] is monotone: of two such concentrations that
    are not negative, the greater never gets the smaller index. *)
Theorem calculate_aqi_from_pm25_monotone_on_tenths (k1 k2 : Z) :
  (0 <= k1 <= k2)%Z ->
  (calculate_aqi_from_pm25 (Some (inject_Z k1 / 10)%Q)
   <= calculate_aqi_from_pm25 (Some (inject_Z k2 / 10)%Q))%Z.
Proof.
  intros [H1 H12].
  assert (inject_Z k1 / 10 <= inject_Z k2 / 10) as Hle.
  { apply Qle_shift_div_l; [lra |].
    assert (inject_Z k1 / 10 * 10 == inject_Z k1) as -> by field.
    now rewrite <- Zle_Qle. }
  destruct (tenth_is_covered k1 H1) as [Hc1 | Hb1].
  - apply calculate_aqi_from_pm25_mono_covered;
      [exact Hc1 | apply tenth_is_covered; lia | exact Hle].
  - unfold calculate_aqi_from_pm25.
    assert (Num.ltb (inject_Z k1 / 10) 0 = false) as ->
      by (apply ltb_false; lra).
    assert (Num.ltb (inject_Z k2 / 10) 0 = false) as ->
      by (apply ltb_false; lra).
    rewrite !scan_breakpoints_beyond by lra. lia.
Qed.

Lemma calculate_aqi_from_pm25_monotone_on_tenths_witness :
  (calculate_aqi_from_pm25 (Some (inject_Z 120 / 10)%Q)
   <= calculate_aqi_from_pm25 (Some (inject_Z 121 / 10)%Q))%Z.
Proof.
  apply (calculate_aqi_from_pm25_monotone_on_tenths 120 121). lia.
Defined.

End ConverterMore.

Section PipelineFacts.

Import Normalizer.

Variable parse_datetime : string -> option Z.
Variable parse_number : string -> option Q.
Variable now : Z.

Lemma of_reading_aqi (n : reading) (r : Aggregator.row) :
  Aggregator.of_reading n = Some r -> aqiValue n = Some (Aggregator.aqi r).
Proof.
  unfold Aggregator.of_reading.
  destruct (timestamp n); [| discriminate].
  destruct (aqiValue n); [| discriminate].
  now intros [= <-].
Qed.

(** X29. Normalizer and aggregator together: for a batch in which no record
    has an [aqiValue] field, the extremes of the statistics are AQI values
    of the scale: [0 <= min_aqi <= max_aqi <= 500]. *)
Theorem statistics_of_derived_aqi (data : list raw_record)
    (out : list reading) (frame : list Aggregator.row)
    (st : Aggregator.statistics) :
  has_column r_aqiValue data = false ->
  process_real_time_data parse_datetime parse_number now data = Some out ->
  traverse Aggregator.of_reading out = Some frame ->
  Aggregator.calculate_statistics frame = Some st ->
  (0 <= Stats.min_aqi (Aggregator.aqi_statistics st))%Z /\
  (Stats.min_aqi (Aggregator.aqi_statistics st)
   <= Stats.max_aqi (Aggregator.aqi_statistics st))%Z /\
  (Stats.max_aqi (Aggregator.aqi_statistics st) <= 500)%Z.
Proof.
  intros Hno Hout Hframe Hst.
  assert (Forall (fun n => exists z : Z, (0 <= z <= 500)%Z /\
                             aqiValue n = Some (inject_Z z)) out) as Hwhole.
  { unfold process_real_time_data in Hout.
    apply (traverse_all _ _ _ _ Hout). intros [ts r] n _ Hn.
    destruct (derived_row_is_whole parse_number (columns_of data) ts r n
                Hno Hn) as [z [Hz [Ha _]]].
    exists z. auto. }
  assert (Forall (fun v => exists z : Z, (0 <= z <= 500)%Z /\ v = inject_Z z)
                 (map Aggregator.aqi frame)) as Haqi.
  { apply Forall_map. apply (traverse_all _ _ _ _ Hframe).
    intros n r Hin Hr. apply of_reading_aqi in Hr.
    rewrite Forall_forall in Hwhole.
    destruct (Hwhole n Hin) as [z [Hz Ha]].
    exists z. split; [exact Hz | congruence]. }
  unfold Aggregator.calculate_statistics in Hst.
  destruct frame as [| first rest]; [discriminate |].
  cbn [map Stats.calculate_statistics] in Hst. injection Hst as <-.
  cbn [Aggregator.aqi_statistics Stats.min_aqi Stats.max_aqi].
  cbn [map] in Haqi. rewrite Forall_forall in Haqi.
  destruct (minimum_spec (map Aggregator.aqi rest) (Aggregator.aqi first))
    as [Hmin_in [Hmin_x _]].
  destruct (maximum_spec (map Aggregator.aqi rest) (Aggregator.aqi first))
    as [Hmax_in [Hmax_x _]].
  destruct (Haqi (Stats.minimum (Aggregator.aqi first)
                                (map Aggregator.aqi rest)))
    as [zmin [Hzmin Hemin]];
    [destruct Hmin_in as [-> | Hin]; [now left | now right] |].
  destruct (Haqi (Stats.maximum (Aggregator.aqi first)
                                (map Aggregator.aqi rest)))
    as [zmax [Hzmax Hemax]];
    [destruct Hmax_in as [-> | Hin]; [now left | now right] |].
  assert (inject_Z zmin <= inject_Z zmax) as Hle
    by (rewrite <- Hemin, <- Hemax; lra).
  rewrite <- Zle_Qle in Hle.
  rewrite (int_whole zmin) by (rewrite Hemin; reflexivity).
  rewrite (int_whole zmax) by (rewrite Hemax; reflexivity).
  lia.
Qed.

End PipelineFacts.

Section PipelineExamples.

Import Normalizer.

Lemma statistics_of_derived_aqi_witness :
  exists out frame st,
    example_run Aggregator.sample_batch = Some out /\
    traverse Aggregator.of_reading out = Some frame /\
    Aggregator.calculate_statistics frame = Some st /\
    (0 <= Stats.min_aqi (Aggregator.aqi_statistics st))%Z /\
    (Stats.min_aqi (Aggregator.aqi_statistics st)
     <= Stats.max_aqi (Aggregator.aqi_statistics st))%Z /\
    (Stats.max_aqi (Aggregator.aqi_statistics st) <= 500)%Z.
Proof.
  eexists. eexists. eexists.
  split; [reflexivity |]. split; [reflexivity |]. split; [reflexivity |].
  eapply (statistics_of_derived_aqi example_datetime example_number
            ingestion_time Aggregator.sample_batch); reflexivity.
Defined.

End PipelineExamples.
